(** * A finite-state-machine harness for a mobile-robot controller

    Shallow embedding of [scripts/helpers/node.py]: the [State] base class,
    the [Node] controller that owns the sensor cache and the active state,
    and the message-delivery callbacks that drive it.

    The Python objects are mutable and shared, so the embedding threads one
    [World] through every call: the single [Node] of the process, the heap of
    [State] instances (by object identity), the ROS parameter server, the
    registered subscriber callbacks and the trace of observable effects.
    Exceptions are the [Raised] outcome of a computation in the monad [M]. *)

From Stdlib Require Import Floats.SpecFloat.
From stdpp Require Import gmap strings list fin_maps.

(** ** Values *)

(** A Python [float]: an IEEE-754 datum, NaN and the infinities included. *)
Definition pyfloat : Set := spec_float.

(** [cmath.isnan] on a float. *)
Definition isnan (x : pyfloat) : bool :=
  match x with
  | S754_nan => true
  | _ => false
  end.

(** The integer literal [0] once stored in a float64 message field. *)
Definition zero : pyfloat := S754_zero false.

(** A float is finite when it is neither NaN nor an infinity. *)
Definition isfinite (x : pyfloat) : bool :=
  match x with
  | S754_nan | S754_infinity _ => false
  | _ => true
  end.

(** Values of configuration parameters and of instance attributes ([Any]). *)
Inductive pyvalue :=
| VNone
| VBool (b : bool)
| VInt (z : Z)
| VFloat (f : pyfloat)
| VStr (s : string).

(** The exceptions that cross the harness. [WaitingForData] is the class
    defined in the module; the others are Python's own. *)
Inductive exn :=
| WaitingForData
| NotImplementedError
| AttributeError
| OtherError (msg : string).

Global Instance exn_eq_dec : EqDecision exn.
Proof. solve_decision. Defined.

Inductive Result (A : Type) :=
| Ok (a : A)
| Raised (e : exn).
Arguments Ok {A} a.
Arguments Raised {A} e.

(** ** ROS messages (the fields the module reads or writes) *)

Record Vector3 := { v3_x : pyfloat; v3_y : pyfloat; v3_z : pyfloat }.
Record Point := { pt_x : pyfloat; pt_y : pyfloat; pt_z : pyfloat }.
Record Quaternion :=
  { q_x : pyfloat; q_y : pyfloat; q_z : pyfloat; q_w : pyfloat }.
Record Pose := { position : Point; orientation : Quaternion }.
Record PoseWithCovariance := { pwc_pose : Pose }.
Record Twist := { linear : Vector3; angular : Vector3 }.
Record TwistWithCovariance := { twc_twist : Twist }.
Record Odometry :=
  { odom_pose : PoseWithCovariance; odom_twist : TwistWithCovariance }.

(** The collaborators the module imports and that are not part of it: the
    point-cloud message with its decoder ([ros_numpy]) and the marker
    constructor ([helpers.make_marker]). They are taken as parameters. *)
Class Collaborators := {
  PointCloud2 : Type;
  xyz_array : Type;
  pointcloud2_to_xyz_array : PointCloud2 → xyz_array;
  MarkerArgs : Type;
  Marker : Type;
  make_marker : MarkerArgs → Marker
}.

(** A concrete choice of collaborators, for the examples: a cloud is its
    list of points and decoding is the identity. *)
Definition demo_collab : Collaborators :=
  {| PointCloud2 := list Point;
     xyz_array := list Point;
     pointcloud2_to_xyz_array := λ c, c;
     MarkerArgs := Point;
     Marker := Point;
     make_marker := λ p, p |}.

(** Object identity of a [State] instance. *)
Definition loc := nat.

(** The process has one [Node] ([rospy.init_node] is called once); a
    state's back-reference is either [None] or that node. *)
Inductive node_ref := TheNode.

(** The two attributes the subscriber callbacks write. *)
Inductive attr_name := attr_odom | attr_laser_point_cloud.

Global Instance attr_name_eq_dec : EqDecision attr_name.
Proof. solve_decision. Defined.

(** The names that already mean something on a [State] instance: the
    attributes and methods of [class State], and the double-underscore
    names of every Python object ([__class__], [__dict__], ...). *)
Definition is_State_attribute (name : string) : bool :=
  existsb (String.eqb name)
    ["node"; "default_params"; "activate"; "deactivate"; "update"; "run";
     "params"]
  || String.prefix "__" name.

(** The name of an instance attribute that a subclass adds: any other
    name. *)
Record own_attr := {
  own_name : string;
  own_fresh : is_State_attribute own_name = false
}.

Section Harness.
Context `{Collaborators}.

(** The message type a subscription delivers to an attribute. *)
Definition msg_ty (a : attr_name) : Type :=
  match a with
  | attr_odom => Odometry
  | attr_laser_point_cloud => PointCloud2
  end.

(** ** What a state's [update] may do

    [State.update] is abstract ([raise NotImplementedError]); subclasses
    supply it. A body is a tree of calls on the state itself and on the
    node: the sensor accessors, [set_speed], [mark_target], [param] and
    [transition]. [Node.update] and [Node.run] belong to the event loop,
    and the underscore attributes are the node's own, so a body reaches
    none of them. Each continuation receives the outcome of its call, so a
    body may let an exception escape (the usual case) or handle it.

    On itself a body reads [self.node] and [self.params], assigns
    [self.node] ([None], or the node it holds), and reads and assigns the
    attributes its subclass adds. Those are kept apart from the names of
    [class State] by the type of their names, as Python keeps one
    attribute per name: [self.node = x] is [OpSetNode], never
    [OpSetAttr]. *)
Inductive Op :=
| OpSelfNode                              (* self.node *)
| OpSelfParams                            (* self.params *)
| OpSetNode (r : option node_ref)         (* self.node = None / = n *)
| OpGetAttr (a : own_attr)                (* self.<name> *)
| OpSetAttr (a : own_attr) (v : pyvalue)  (* self.<name> = v *)
| OpOdom                                  (* node.odom *)
| OpLaserPointCloud                       (* node.laser_point_cloud *)
| OpLaserPoints                           (* node.laser_points *)
| OpPosition                              (* node.position *)
| OpOrientation                           (* node.orientation *)
| OpLinearVel                             (* node.linear_vel *)
| OpAngularVel                            (* node.angular_vel *)
| OpSetSpeed (forward angular : pyfloat)  (* node.set_speed(f, a) *)
| OpMarkTarget (args : MarkerArgs)        (* node.mark_target(...) *)
| OpParam (name : string) (default_value : pyvalue) (* node.param(n, d) *)
| OpTransition (to_node : loc).           (* node.transition(s) *)

Definition ret_ty (op : Op) : Type :=
  match op with
  | OpSelfNode => option node_ref
  | OpSelfParams => gmap string pyvalue
  | OpSetNode _ => unit
  | OpGetAttr _ => pyvalue
  | OpSetAttr _ _ => unit
  | OpOdom => Odometry
  | OpLaserPointCloud => PointCloud2
  | OpLaserPoints => xyz_array
  | OpPosition => Point
  | OpOrientation => Quaternion
  | OpLinearVel => Vector3
  | OpAngularVel => Vector3
  | OpSetSpeed _ _ => unit
  | OpMarkTarget _ => unit
  | OpParam _ _ => pyvalue
  | OpTransition _ => unit
  end.

Inductive Prog :=
| Return
| Raise (e : exn)
| Do (op : Op) (k : Result (ret_ty op) → Prog).

(** A call whose exception is not handled: it escapes the body. *)
Definition call (op : Op) (k : ret_ty op → Prog) : Prog :=
  Do op (λ r, match r with Ok a => k a | Raised e => Raise e end).

(** ** Objects *)

(** A [State] instance: the back-reference [node], the class attribute
    [default_params], the instance attributes a subclass adds (under
    names other than those of [class State]), and the body of its
    [update] method. *)
Record State := {
  st_node : option node_ref;
  default_params : gmap string pyvalue;
  st_attrs : gmap string pyvalue;
  st_update : Prog
}.

(** [class State]'s own [update]:
    [raise NotImplementedError('Override me!')]. *)
Definition State_update_default : Prog := Raise NotImplementedError.

(** A [rospy.Publisher], identified by its topic. *)
Record Publisher := { pub_topic : string }.

(** The [Node] instance. [active_state], [velocity_pub] and [target_pub]
    are only annotated in the class body, so they are absent ([None] here)
    until [__init__] assigns them; [_odom] and [_laser_point_cloud] default
    to Python's [None]. *)
Record Node := {
  active_state : option loc;
  _odom : option Odometry;
  _laser_point_cloud : option PointCloud2;
  velocity_pub : option Publisher;
  target_pub : option Publisher
}.

(** Observable effects, oldest first. [EvActivate] and [EvDeactivate]
    record the entry into a state's lifecycle hooks. *)
Inductive event :=
| EvInitNode (name : string)
| EvAdvertise (topic : string)
| EvSubscribe (topic : string) (attr : attr_name)
| EvPrint (to_node : loc)
| EvPublishTwist (topic : string) (msg : Twist)
| EvPublishMarker (topic : string) (msg : Marker)
| EvActivate (s : loc)
| EvDeactivate (s : loc).

Record World := {
  node : Node;
  states : gmap loc State;
  param_server : gmap string pyvalue;
  subscribers : list (string * attr_name);
  trace : list event
}.

Definition with_node (f : Node → Node) (w : World) : World :=
  {| node := f (node w); states := states w;
     param_server := param_server w; subscribers := subscribers w;
     trace := trace w |}.

Definition with_states (f : gmap loc State → gmap loc State) (w : World)
  : World :=
  {| node := node w; states := f (states w);
     param_server := param_server w; subscribers := subscribers w;
     trace := trace w |}.

Definition emit (e : event) (w : World) : World :=
  {| node := node w; states := states w;
     param_server := param_server w; subscribers := subscribers w;
     trace := trace w ++ [e] |}.

Definition add_subscriber (topic : string) (a : attr_name) (w : World)
  : World :=
  {| node := node w; states := states w;
     param_server := param_server w;
     subscribers := subscribers w ++ [(topic, a)];
     trace := trace w |}.

Definition set_active_state (s : loc) (n : Node) : Node :=
  {| active_state := Some s; _odom := _odom n;
     _laser_point_cloud := _laser_point_cloud n;
     velocity_pub := velocity_pub n; target_pub := target_pub n |}.

Definition set_velocity_pub (p : Publisher) (n : Node) : Node :=
  {| active_state := active_state n; _odom := _odom n;
     _laser_point_cloud := _laser_point_cloud n;
     velocity_pub := Some p; target_pub := target_pub n |}.

Definition set_target_pub (p : Publisher) (n : Node) : Node :=
  {| active_state := active_state n; _odom := _odom n;
     _laser_point_cloud := _laser_point_cloud n;
     velocity_pub := velocity_pub n; target_pub := Some p |}.

(** [self.__setattr__(attr_name, msg)] for the two subscribed attributes. *)
Definition setattr (a : attr_name) : msg_ty a → Node → Node :=
  match a with
  | attr_odom => λ msg n,
      {| active_state := active_state n; _odom := Some msg;
         _laser_point_cloud := _laser_point_cloud n;
         velocity_pub := velocity_pub n; target_pub := target_pub n |}
  | attr_laser_point_cloud => λ msg n,
      {| active_state := active_state n; _odom := _odom n;
         _laser_point_cloud := Some msg;
         velocity_pub := velocity_pub n; target_pub := target_pub n |}
  end.

Definition set_st_node (r : option node_ref) (o : State) : State :=
  {| st_node := r; default_params := default_params o;
     st_attrs := st_attrs o; st_update := st_update o |}.

Definition set_st_attr (name : string) (v : pyvalue) (o : State) : State :=
  {| st_node := st_node o; default_params := default_params o;
     st_attrs := <[name := v]> (st_attrs o); st_update := st_update o |}.

(** ** The monad of calls: a world in, an outcome and a world out *)

Definition M (A : Type) : Type := World → Result A * World.

Definition ret {A} (a : A) : M A := λ w, (Ok a, w).

Definition raise {A} (e : exn) : M A := λ w, (Raised e, w).

Definition bind {A B} (m : M A) (k : A → M B) : M B := λ w,
  match m w with
  | (Ok a, w') => k a w'
  | (Raised e, w') => (Raised e, w')
  end.

Definition modify (f : World → World) : M unit := λ w, (Ok tt, f w).

Definition gets {A} (f : World → A) : M A := λ w, (Ok (f w), w).

(** [try: m except WaitingForData: pass]. *)
Definition except_WaitingForData (m : M unit) : M unit := λ w,
  match m w with
  | (Raised WaitingForData, w') => (Ok tt, w')
  | r => r
  end.

Declare Scope M_scope.
Delimit Scope M_scope with M.
Bind Scope M_scope with M.
Notation "x ← y ; z" := (bind y (λ x, z))
  (at level 20, y at level 100, z at level 200, only parsing) : M_scope.
Notation "x ;; z" := (bind x (λ _, z))
  (at level 100, z at level 200, only parsing, right associativity) : M_scope.
Local Open Scope M_scope.

(** Attribute reads that fail with [AttributeError] when the attribute
    (or the object) is missing. *)
Definition get_state (s : loc) : M State := λ w,
  match states w !! s with
  | Some o => (Ok o, w)
  | None => (Raised AttributeError, w)
  end.

Definition get_active_state : M loc := λ w,
  match active_state (node w) with
  | Some s => (Ok s, w)
  | None => (Raised AttributeError, w)
  end.

Definition get_velocity_pub : M Publisher := λ w,
  match velocity_pub (node w) with
  | Some p => (Ok p, w)
  | None => (Raised AttributeError, w)
  end.

Definition get_target_pub : M Publisher := λ w,
  match target_pub (node w) with
  | Some p => (Ok p, w)
  | None => (Raised AttributeError, w)
  end.

(** ** [class State] *)

(** [activate(self, node)]: [self.node = node]. A call on something that
    is not a [State] (no such object in the heap) is an [AttributeError]. *)
Definition State_activate (self : loc) (nd : node_ref) : M unit :=
  o ← get_state self;
  modify (emit (EvActivate self)) ;;
  modify (with_states <[self := set_st_node (Some nd) o]>).

(** [deactivate(self)]: [self.node = None]. *)
Definition State_deactivate (self : loc) : M unit :=
  o ← get_state self;
  modify (emit (EvDeactivate self)) ;;
  modify (with_states <[self := set_st_node None o]>).

(** ** [class Node]: configuration and sensors *)

(** [rospy.get_param(key, default)]: the stored value, or the default. *)
Definition rospy_get_param (key : string) (default_value : pyvalue)
  : M pyvalue :=
  gets (λ w, default default_value (param_server w !! key)).

(** [param(self, name, default_value)]. *)
Definition Node_param (name : string) (default_value : pyvalue) : M pyvalue :=
  rospy_get_param ("~" +:+ name) default_value.

(** [odom]: the cached message, or [WaitingForData]. *)
Definition Node_odom : M Odometry := λ w,
  match _odom (node w) with
  | None => (Raised WaitingForData, w)
  | Some o => (Ok o, w)
  end.

Definition Node_laser_point_cloud : M PointCloud2 := λ w,
  match _laser_point_cloud (node w) with
  | None => (Raised WaitingForData, w)
  | Some c => (Ok c, w)
  end.

Definition Node_laser_points : M xyz_array :=
  c ← Node_laser_point_cloud; ret (pointcloud2_to_xyz_array c).

Definition Node_position : M Point :=
  o ← Node_odom; ret (position (pwc_pose (odom_pose o))).

Definition Node_orientation : M Quaternion :=
  o ← Node_odom; ret (orientation (pwc_pose (odom_pose o))).

Definition Node_linear_vel : M Vector3 :=
  o ← Node_odom; ret (linear (twc_twist (odom_twist o))).

Definition Node_angular_vel : M Vector3 :=
  o ← Node_odom; ret (angular (twc_twist (odom_twist o))).

(** ** [class Node]: actuation *)

Definition publish_twist (p : Publisher) (msg : Twist) : M unit :=
  modify (emit (EvPublishTwist (pub_topic p) msg)).

Definition publish_marker (p : Publisher) (msg : Marker) : M unit :=
  modify (emit (EvPublishMarker (pub_topic p) msg)).

(** [set_speed(self, forward, angular)]. *)
Definition Node_set_speed (forward angular : pyfloat) : M unit :=
  let forward := if isnan forward then zero else forward in
  let angular := if isnan angular then zero else angular in
  let twist :=
    {| linear := {| v3_x := forward; v3_y := zero; v3_z := zero |};
       angular := {| v3_x := zero; v3_y := zero; v3_z := angular |} |} in
  p ← get_velocity_pub;
  publish_twist p twist.

(** [mark_target(self, *args, **kwargs)]. *)
Definition Node_mark_target (args : MarkerArgs) : M unit :=
  p ← get_target_pub;
  publish_marker p (make_marker args).

(** ** [class Node]: the state machine *)

(** [transition(self, to_node)]. *)
Definition Node_transition (to_node : loc) : M unit :=
  modify (emit (EvPrint to_node)) ;;
  (s ← get_active_state; State_deactivate s) ;;
  modify (with_node (set_active_state to_node)) ;;
  (s ← get_active_state; State_activate s TheNode).

(** [State.params]: the dict comprehension over
    [self.default_params.items()], one [self.node.param] call per item. *)
Fixpoint params_items (self : loc) (items : list (string * pyvalue))
    (acc : gmap string pyvalue) : M (gmap string pyvalue) :=
  match items with
  | [] => ret acc
  | (name, val) :: rest =>
      o ← get_state self;
      match st_node o with
      | None => raise AttributeError
      | Some _ =>
          v ← Node_param name val;
          params_items self rest (<[name := v]> acc)
      end
  end.

Definition State_params (self : loc) : M (gmap string pyvalue) :=
  o ← get_state self;
  params_items self (map_to_list (default_params o)) ∅.

(** One call of a body. *)
Definition exec (op : Op) (self : loc) : M (ret_ty op) :=
  match op return M (ret_ty op) with
  | OpSelfNode => o ← get_state self; ret (st_node o)
  | OpSelfParams => State_params self
  | OpSetNode r =>
      o ← get_state self;
      modify (with_states <[self := set_st_node r o]>)
  | OpGetAttr a =>
      o ← get_state self;
      match st_attrs o !! own_name a with
      | Some v => ret v
      | None => raise AttributeError
      end
  | OpSetAttr a v =>
      o ← get_state self;
      modify (with_states <[self := set_st_attr (own_name a) v o]>)
  | OpOdom => Node_odom
  | OpLaserPointCloud => Node_laser_point_cloud
  | OpLaserPoints => Node_laser_points
  | OpPosition => Node_position
  | OpOrientation => Node_orientation
  | OpLinearVel => Node_linear_vel
  | OpAngularVel => Node_angular_vel
  | OpSetSpeed forward angular => Node_set_speed forward angular
  | OpMarkTarget args => Node_mark_target args
  | OpParam name default_value => Node_param name default_value
  | OpTransition to_node => Node_transition to_node
  end.

(** Running the body of [update] on the instance [self]. *)
Fixpoint run (p : Prog) (self : loc) : M unit :=
  match p with
  | Return => ret tt
  | Raise e => raise e
  | Do op k => λ w, let (r, w') := exec op self w in run (k r) self w'
  end.

(** [s.update()]: method lookup on the object, then its body. *)
Definition State_update (self : loc) : M unit :=
  o ← get_state self; run (st_update o) self.

(** [update(self)]: the dispatch. *)
Definition Node_update : M unit :=
  except_WaitingForData (s ← get_active_state; State_update s).

(** ** [class Node]: construction and message delivery *)

(** [_subscribe(self, topic, msg_type, attr_name)]: [rospy.Subscriber]
    registers the callback. *)
Definition _subscribe (topic : string) (a : attr_name) : M unit :=
  modify (add_subscriber topic a) ;;
  modify (emit (EvSubscribe topic a)).

(** The callback [_handler(msg)] created by [_subscribe] for [attr_name]. *)
Definition _handler (a : attr_name) (msg : msg_ty a) : M unit :=
  modify (with_node (setattr a msg)) ;;
  Node_update.

(** [__init__(self, starting_state, name)]. *)
Definition Node_init (starting_state : loc) (name : string) : M unit :=
  modify (emit (EvInitNode name)) ;;
  modify (with_node (set_active_state starting_state)) ;;
  (s ← get_active_state; State_activate s TheNode) ;;
  modify (with_node (set_velocity_pub {| pub_topic := "/cmd_vel" |})) ;;
  modify (emit (EvAdvertise "/cmd_vel")) ;;
  modify (with_node (set_target_pub {| pub_topic := "/target" |})) ;;
  modify (emit (EvAdvertise "/target")) ;;
  _subscribe "/odom" attr_odom ;;
  _subscribe "/projected_stable_scan" attr_laser_point_cloud.

(** The world [__init__] leaves when [starting_state] is the state [o]:
    the effects of its statements, in order. *)
Definition constructed (starting_state : loc) (name : string) (o : State)
    (w : World) : World :=
  let w := emit (EvInitNode name) w in
  let w := with_node (set_active_state starting_state) w in
  let w := emit (EvActivate starting_state) w in
  let w :=
    with_states <[starting_state := set_st_node (Some TheNode) o]> w in
  let w := with_node (set_velocity_pub {| pub_topic := "/cmd_vel" |}) w in
  let w := emit (EvAdvertise "/cmd_vel") w in
  let w := with_node (set_target_pub {| pub_topic := "/target" |}) w in
  let w := emit (EvAdvertise "/target") w in
  let w := add_subscriber "/odom" attr_odom w in
  let w := emit (EvSubscribe "/odom" attr_odom) w in
  let w :=
    add_subscriber "/projected_stable_scan" attr_laser_point_cloud w in
  emit (EvSubscribe "/projected_stable_scan" attr_laser_point_cloud) w.

(** The [Node] object as allocated, before [__init__] runs: the class
    attributes only. *)
Definition Node_new : Node :=
  {| active_state := None; _odom := None; _laser_point_cloud := None;
     velocity_pub := None; target_pub := None |}.

(** ** The transport

    [rospy] invokes a callback for a message only if one was registered for
    that attribute's topic; what a callback raises goes to [rospy], and the
    next message is delivered to the world the callback left. *)
Definition delivery : Type := sigT msg_ty.

Definition subscribed (a : attr_name) (w : World) : bool :=
  existsb (λ s, bool_decide (snd s = a)) (subscribers w).

Definition deliver (d : delivery) : M unit := λ w,
  if subscribed (projT1 d) w then _handler (projT1 d) (projT2 d) w
  else (Ok tt, w).

(** The world after the callbacks were invoked for [ds], in that order. *)
Definition feed (ds : list delivery) (w : World) : World :=
  fold_left (λ w d, snd (_handler (projT1 d) (projT2 d) w)) ds w.

(** The cache slot behind an attribute, and the last message delivered to
    it in a sequence of deliveries. *)
Definition slot (a : attr_name) (n : Node) : option (msg_ty a) :=
  match a with
  | attr_odom => _odom n
  | attr_laser_point_cloud => _laser_point_cloud n
  end.

Definition payload (a : attr_name) (d : delivery) : option (msg_ty a) :=
  match d with
  | existT b msg =>
      match a, b return msg_ty b → option (msg_ty a) with
      | attr_odom, attr_odom => λ m, Some m
      | attr_laser_point_cloud, attr_laser_point_cloud => λ m, Some m
      | _, _ => λ _, None
      end msg
  end.

Fixpoint last_msg (a : attr_name) (ds : list delivery)
  : option (msg_ty a) :=
  match ds with
  | [] => None
  | d :: ds' =>
      match last_msg a ds' with
      | Some m => Some m
      | None => payload a d
      end
  end.

(** No message for attribute [a] occurs in [ds]. *)
Definition never_received (a : attr_name) (ds : list delivery) : Prop :=
  Forall (λ d, projT1 d ≠ a) ds.

(** What no call of a body can touch: the two cache slots, the publishers,
    the registered callbacks and the parameter server. *)
Definition wiring (w : World) :=
  (_odom (node w), _laser_point_cloud (node w),
   velocity_pub (node w), target_pub (node w),
   subscribers w, param_server w).

(** ** Observing a run *)

(** [performs self p w op r w1]: while the body [p] runs on [self] from
    the world [w], it makes the call [op] in the world [w1] and gets the
    outcome [r]. *)
Inductive performs (self : loc)
  : Prog → World → ∀ op : Op, Result (ret_ty op) → World → Prop :=
| performs_now op k w :
    performs self (Do op k) w op (fst (exec op self w)) w
| performs_later op k w op' r' w1 :
    performs self (k (fst (exec op self w))) (snd (exec op self w))
      op' r' w1 →
    performs self (Do op k) w op' r' w1.

(** The number of transitions announced so far ([print] in [transition]). *)
Definition announces (e : event) : nat :=
  match e with
  | EvPrint _ => 1
  | _ => 0
  end.

Definition transitions (w : World) : nat :=
  sum_list_with announces (trace w).

(** ** The sensor cache as the specification words it

    [get_or_fail]: the cached value if present, [WaitingForData] if the
    channel has no value; a derived reading applies [f] to the value. *)
Definition get_or_fail {A B} (cached : option A) (f : A → B) : M B := λ w,
  match cached with
  | Some v => (Ok (f v), w)
  | None => (Raised WaitingForData, w)
  end.

(** An accessor [acc] over the channel of [a], deriving its reading with
    [f], after the deliveries [ds] led to the world [w]: it answers as
    [get_or_fail] on the last message of the channel, and it fails with
    [WaitingForData] exactly when the channel never received one. *)
Definition reads_channel {B} (acc : M B) (a : attr_name) (f : msg_ty a → B)
    (ds : list delivery) (w : World) : Prop :=
  acc w = get_or_fail (last_msg a ds) f w ∧
  (fst (acc w) = Raised WaitingForData ↔ never_received a ds).

(** The velocity command with forward speed [forward] and yaw rate
    [angular]: [Twist(Vector3(forward, 0, 0), Vector3(0, 0, angular))]. *)
Definition velocity_command (forward angular : pyfloat) : Twist :=
  {| linear := {| v3_x := forward; v3_y := zero; v3_z := zero |};
     angular := {| v3_x := zero; v3_y := zero; v3_z := angular |} |}.

(** [set_speed] as the specification words it: every non-finite input is
    replaced by zero. *)
Definition sanitize_non_finite (x : pyfloat) : pyfloat :=
  if isfinite x then x else zero.

End Harness.

(** ** Example objects *)

(** [1.0], [2.0] and [float('inf')] in binary64. *)
Definition one : pyfloat := S754_finite false 4503599627370496 (-52).
Definition two : pyfloat := S754_finite false 4503599627370496 (-51).
Definition inf : pyfloat := S754_infinity false.

Definition demo_odom (x vx : pyfloat) : Odometry :=
  {| odom_pose :=
       {| pwc_pose :=
            {| position := {| pt_x := x; pt_y := zero; pt_z := zero |};
               orientation :=
                 {| q_x := zero; q_y := zero; q_z := zero;
                    q_w := one |} |} |};
     odom_twist :=
       {| twc_twist :=
            {| linear := {| v3_x := vx; v3_y := zero; v3_z := zero |};
               angular := {| v3_x := zero; v3_y := zero; v3_z := zero |} |} |}
  |}.

(** [update] of a state that drives at the measured forward speed:
    [self.node.set_speed(self.node.linear_vel.x, 0)]. *)
Definition follow_body : @Prog demo_collab :=
  call OpLinearVel (λ v, call (OpSetSpeed (v3_x v) zero) (λ _, Return)).

(** [update] of a state that hands over to state [2] and then reads the
    odometry through the node it was bound to:
    [n = self.node; n.transition(s2); n.odom]. *)
Definition handover_body : @Prog demo_collab :=
  call OpSelfNode (λ n,
    match n with
    | None => Raise AttributeError
    | Some _ =>
        call (OpTransition 2) (λ _, call OpOdom (λ _, Return))
    end).

Definition demo_state (r : option node_ref) (body : @Prog demo_collab)
  : @State demo_collab :=
  {| st_node := r;
     default_params := {[ "gain" := VInt 3; "name" := VStr "neato" ]};
     st_attrs := ∅;
     st_update := body |}.

(** Before construction: the states exist, the node is only allocated. *)
Definition demo_heap : gmap loc (@State demo_collab) :=
  {[ 1 := demo_state None handover_body; 2 := demo_state None follow_body;
     3 := demo_state None State_update_default ]}.

Definition demo_world0 : @World demo_collab :=
  {| node := Node_new; states := demo_heap;
     param_server := {[ "~gain" := VInt 7 ]};
     subscribers := []; trace := [] |}.

(** After [Node(state_1, "demo")]. *)
Definition demo_world : @World demo_collab :=
  snd (Node_init 1 "demo" demo_world0).

(** After [Node(state_2, "demo")] and after [Node(state_3, "demo")]. *)
Definition demo_world_follow : @World demo_collab :=
  snd (Node_init 2 "demo" demo_world0).

Definition demo_world_abstract : @World demo_collab :=
  snd (Node_init 3 "demo" demo_world0).

(** Two odometry messages and one point cloud, as deliveries. *)
Definition odom_A : Odometry := demo_odom one two.
Definition odom_B : Odometry := demo_odom two one.

Definition demo_deliveries : list (@delivery demo_collab) :=
  [ existT attr_odom odom_A;
    existT attr_laser_point_cloud
      [ {| pt_x := one; pt_y := two; pt_z := zero |} ];
    existT attr_odom odom_B ].

(** ** Bodies written the usual way, invariants and the bootstrap *)

Section Lifecycle.
Context `{Collaborators}.

Declare Scope boot_scope.
Notation "x ;; z" := (bind x (λ _, z))
  (at level 100, z at level 200, only parsing, right associativity)
  : boot_scope.
Local Open Scope boot_scope.

(** [self.node.<op>]: the call through the back-reference. When the state
    is not bound, [self.node] is [None], which has no attribute. *)
Definition via_node (op : Op) (k : ret_ty op → Prog) : Prog :=
  Do OpSelfNode (λ r,
    match r with
    | Ok (Some _) => call op k
    | Ok None => Raise AttributeError
    | Raised e => Raise e
    end).

(** The cache slot a sensor accessor reads, if the call is one. *)
Definition channel_of (op : Op) : option attr_name :=
  match op with
  | OpOdom | OpPosition | OpOrientation | OpLinearVel | OpAngularVel =>
      Some attr_odom
  | OpLaserPointCloud | OpLaserPoints => Some attr_laser_point_cloud
  | _ => None
  end.

(** A state that holds a back-reference is the active one. *)
Definition sole_owner (w : World) : Prop :=
  ∀ s o, states w !! s = Some o → is_Some (st_node o) →
         active_state (node w) = Some s.

(** The slot holds a [State] that is bound to the node. *)
Definition active_bound (w : World) : Prop :=
  ∃ s o, active_state (node w) = Some s ∧ states w !! s = Some o ∧
         st_node o = Some TheNode.

(** Every [transition] a body can reach is to one of the objects [D]. *)
Fixpoint targets_in (D : gset loc) (p : Prog) : Prop :=
  match p with
  | Return | Raise _ => True
  | Do op k =>
      match op with
      | OpTransition to_node => to_node ∈ D
      | _ => True
      end ∧ ∀ r, targets_in D (k r)
  end.

(** The body never assigns [self.node] itself: binding and unbinding are
    left to [activate] and [deactivate]. *)
Fixpoint keeps_node (p : Prog) : Prop :=
  match p with
  | Return | Raise _ => True
  | Do op k =>
      match op with
      | OpSetNode _ => False
      | _ => True
      end ∧ ∀ r, keeps_node (k r)
  end.

(** No state of the heap assigns its own [node]. *)
Definition harness_binds (w : World) : Prop :=
  ∀ s o, states w !! s = Some o → keeps_node (st_update o).

(** Every state only ever hands over to a state of the heap. *)
Definition closed_heap (w : World) : Prop :=
  ∀ s o, states w !! s = Some o → targets_in (dom (states w)) (st_update o).

(** The heap holds the same objects with the same [update] bodies. *)
Definition same_bodies (w w' : World) : Prop :=
  ∀ s, st_update <$> states w' !! s = st_update <$> states w !! s.

(** A velocity command as [set_speed] builds it: no NaN as forward speed
    or yaw rate, and [0] in the four other components. *)
Definition is_zero (x : pyfloat) : bool :=
  match x with
  | S754_zero false => true
  | _ => false
  end.

Definition clean_command (t : Twist) : bool :=
  negb (isnan (v3_x (linear t))) && is_zero (v3_y (linear t))
  && is_zero (v3_z (linear t)) && is_zero (v3_x (angular t))
  && is_zero (v3_y (angular t)) && negb (isnan (v3_z (angular t))).

(** What a dispatch may add to the trace of a world wired as [w]: clean
    commands on the velocity publisher's topic, markers on the target
    publisher's topic, and the announcements and hooks of transitions. *)
Definition dispatch_event (w : World) (e : event) : Prop :=
  match e with
  | EvPublishTwist topic msg =>
      velocity_pub (node w) = Some {| pub_topic := topic |} ∧
      clean_command msg = true
  | EvPublishMarker topic _ =>
      target_pub (node w) = Some {| pub_topic := topic |}
  | EvPrint _ | EvActivate _ | EvDeactivate _ => True
  | EvInitNode _ | EvAdvertise _ | EvSubscribe _ _ => False
  end.

(** From [w] to [w'] the trace only grew, and only by such events. *)
Definition grows_by_dispatch_events (w w' : World) : Prop :=
  ∃ evs, trace w' = trace w ++ evs ∧ Forall (dispatch_event w) evs.

(** ** The bootstrap: [Node.run], [Node.run_node] and [State.run] *)

(** Python's [name or fallback] on an optional string: [None] and the
    empty string are both falsy. *)
Definition name_or (name : option string) (fallback : string) : string :=
  match name with
  | Some (String _ _ as s) => s
  | _ => fallback
  end.

(** [run(self)]: [rospy.spin()] blocks until shutdown and then returns;
    [arrivals] are the messages the transport delivers meanwhile. *)
Definition Node_run (arrivals : list delivery) : M unit :=
  modify (λ w, fold_left (λ w d, snd (deliver d w)) arrivals w).

(** [run_node(cls, state, name, gazebo_reset)]. [reset_gazebo] is the
    helper of [helpers.py], taken as a parameter with its [wait] argument;
    [class_name] is [state.__class__.__name__]. [cls(state, ...)] allocates
    the node before [__init__] runs. *)
Definition Node_run_node (reset_gazebo : bool → M unit)
    (state : loc) (class_name : string) (name : option string)
    (gazebo_reset : bool) (arrivals : list delivery) : M unit :=
  (if gazebo_reset then reset_gazebo true else ret tt) ;;
  modify (with_node (λ _, Node_new)) ;;
  Node_init state (name_or name class_name) ;;
  Node_run arrivals.

(** [State.run(self, name, gazebo_reset)]. *)
Definition State_run (reset_gazebo : bool → M unit)
    (self : loc) (class_name : string) (name : option string)
    (gazebo_reset : bool) (arrivals : list delivery) : M unit :=
  Node_run_node reset_gazebo self class_name
    (Some (name_or name class_name)) gazebo_reset arrivals.

End Lifecycle.

(** [update] of a state that hands over to state [2] and then stops the
    robot, both through its back-reference:
    [self.node.transition(s2); self.node.set_speed(0, 0)]. *)
Definition eager_body : @Prog demo_collab :=
  via_node (OpTransition 2)
    (λ _, via_node (OpSetSpeed zero zero) (λ _, Return)).

(** The example heap with that state at [4], before construction. *)
Definition demo_world0_eager : @World demo_collab :=
  with_states <[4 := demo_state None eager_body]> demo_world0.

(** [update] of a state that hands over to state [2] and then sets the
    speed on the node it saved:
    [n = self.node; self.node.transition(s2); n.set_speed(0, nan)]. *)
Definition saved_body : @Prog demo_collab :=
  via_node (OpTransition 2)
    (λ _, call (OpSetSpeed zero S754_nan) (λ _, Return)).

Definition demo_world0_saved : @World demo_collab :=
  with_states <[5 := demo_state None saved_body]> demo_world0.

(** [update] of a state that hands over to state [2] and then takes the
    node back: [n = self.node; n.transition(s2); self.node = n]. *)
Definition rebind_body : @Prog demo_collab :=
  call OpSelfNode (λ n,
    call (OpTransition 2) (λ _, call (OpSetNode n) (λ _, Return))).

Definition demo_world0_rebind : @World demo_collab :=
  with_states <[7 := demo_state None rebind_body]> demo_world0.

(** An attribute of a subclass, [self.ticks]. *)
Definition ticks : own_attr :=
  {| own_name := "ticks"; own_fresh := eq_refl |}.

(** [update] of a state that counts its dispatches from the first one:
    [self.ticks = 1] and then reads it back. *)
Definition ticking_body : @Prog demo_collab :=
  call (OpSetAttr ticks (VInt 1)) (λ _, call (OpGetAttr ticks) (λ v,
    match v with
    | VInt 1 => Return
    | _ => Raise (OtherError "ticks")
    end)).

Definition demo_world0_ticking : @World demo_collab :=
  with_states <[8 := demo_state None ticking_body]> demo_world0.

(** [update] of a state that unbinds itself: [self.node = None]. *)
Definition unbind_body : @Prog demo_collab :=
  call (OpSetNode None) (λ _, Return).

Definition demo_world0_unbind : @World demo_collab :=
  with_states <[6 := demo_state None unbind_body]> demo_world0.

(** * Properties *)


Ltac unfold_M :=
  unfold bind, ret, raise, modify, gets, get_state, get_active_state,
    get_velocity_pub, get_target_pub in *.

Ltac crush_M := unfold_M; simpl in *; repeat (case_match; simpl in *);
  simplify_eq; try done.

Lemma State_activate_wiring `{Collaborators} s nd w :
  wiring (snd (State_activate s nd w)) = wiring w.
Proof. unfold State_activate. crush_M. Qed.

Lemma State_deactivate_wiring `{Collaborators} s w :
  wiring (snd (State_deactivate s w)) = wiring w.
Proof. unfold State_deactivate. crush_M. Qed.

Lemma Node_transition_wiring `{Collaborators} to_node w :
  wiring (snd (Node_transition to_node w)) = wiring w.
Proof.
  unfold Node_transition, State_activate, State_deactivate. crush_M.
Qed.

Lemma params_items_world `{Collaborators} self items acc w :
  snd (params_items self items acc w) = w.
Proof.
  revert acc. induction items as [|[name val] rest IH]; intros acc; [done|].
  simpl. unfold bind, get_state. destruct (states w !! self) as [o|]; [|done].
  destruct (st_node o); [|done].
  unfold Node_param, rospy_get_param, gets. apply IH.
Qed.

Lemma State_params_world `{Collaborators} self w :
  snd (State_params self w) = w.
Proof.
  unfold State_params, bind, get_state.
  destruct (states w !! self); [apply params_items_world|done].
Qed.

Lemma exec_wiring `{Collaborators} op self w :
  wiring (snd (exec op self w)) = wiring w.
Proof.
  destruct op; simpl;
    try (by rewrite State_params_world);
    try apply Node_transition_wiring;
    unfold Node_laser_points, Node_position, Node_orientation,
      Node_linear_vel, Node_angular_vel, Node_odom, Node_laser_point_cloud,
      Node_set_speed, Node_mark_target, Node_param, rospy_get_param,
      publish_twist, publish_marker;
    crush_M.
Qed.

Lemma run_wiring `{Collaborators} p self w :
  wiring (snd (run p self w)) = wiring w.
Proof.
  revert w. induction p as [| e | op k IH]; intros w; [done..|].
  simpl. destruct (exec op self w) as [r w1] eqn:E.
  rewrite IH. by rewrite <- (exec_wiring op self w), E.
Qed.

Lemma except_WaitingForData_world `{Collaborators} (m : M unit) w :
  snd (except_WaitingForData m w) = snd (m w).
Proof.
  unfold except_WaitingForData.
  destruct (m w) as [[[]|[]] w']; done.
Qed.

Lemma Node_update_wiring `{Collaborators} w :
  wiring (snd (Node_update w)) = wiring w.
Proof.
  unfold Node_update. rewrite except_WaitingForData_world.
  unfold State_update, bind, get_active_state, get_state.
  destruct (active_state (node w)) as [s|]; [|done].
  destruct (states w !! s) as [o|]; [|done]. apply run_wiring.
Qed.

Lemma emit_transitions `{Collaborators} e w :
  transitions (emit e w) = transitions w + announces e.
Proof.
  unfold transitions. simpl. rewrite sum_list_with_app. simpl. lia.
Qed.

Lemma with_states_transitions `{Collaborators} f w :
  transitions (with_states f w) = transitions w.
Proof. done. Qed.

Lemma with_node_transitions `{Collaborators} f w :
  transitions (with_node f w) = transitions w.
Proof. done. Qed.

(** A call either leaves the active-state slot alone or announces a
    transition; the count of announcements never decreases. *)
Lemma exec_active_state `{Collaborators} op self w :
  transitions w ≤ transitions (snd (exec op self w)) ∧
  (transitions (snd (exec op self w)) = transitions w →
   active_state (node (snd (exec op self w))) = active_state (node w)).
Proof.
  destruct op; simpl;
    try (rewrite State_params_world; split; [lia|done]);
    unfold Node_laser_points, Node_position, Node_orientation,
      Node_linear_vel, Node_angular_vel, Node_odom, Node_laser_point_cloud,
      Node_set_speed, Node_mark_target, Node_param, rospy_get_param,
      publish_twist, publish_marker, Node_transition, State_activate,
      State_deactivate;
    unfold_M; simpl; repeat (case_match; simpl in * );
    simplify_eq;
    repeat first [ rewrite with_states_transitions
                 | rewrite with_node_transitions
                 | rewrite emit_transitions ];
    simpl; split; try lia; try done.
Qed.

Lemma run_active_state `{Collaborators} p self w :
  transitions w ≤ transitions (snd (run p self w)) ∧
  (transitions (snd (run p self w)) = transitions w →
   active_state (node (snd (run p self w))) = active_state (node w)).
Proof.
  revert w. induction p as [| e | op k IH]; intros w; [done..|].
  simpl. destruct (exec op self w) as [r w1] eqn:E.
  destruct (IH r w1) as [Hle Heq].
  destruct (exec_active_state op self w) as [Hle1 Heq1].
  rewrite E in Hle1, Heq1. simpl in *.
  split; [lia|]. intros Ht. rewrite Heq by lia. apply Heq1. lia.
Qed.

(** ** Dispatch: [Node.update] *)

(** C1, as stated, fails: the state at [1] saves its node, hands over to
    state [2] and then reads the odometry, which is not there yet. Its
    [update] raises [WaitingForData], the dispatch swallows it, and the
    active state after the dispatch is [2], not [1]. *)
Lemma C1_handover_then_wait_changes_active_state :
  active_state (node demo_world) = Some 1 ∧
  fst (State_update 1 demo_world) = Raised WaitingForData ∧
  fst (Node_update demo_world) = Ok tt ∧
  active_state (node (snd (Node_update demo_world)))
    ≠ active_state (node demo_world).
Proof. vm_compute. repeat split; discriminate. Qed.

(** C1 (amended): when the active state's [update] raises
    [WaitingForData], [Node.update] returns normally and leaves the world
    exactly as the state's [update] left it when it raised: nothing is
    reported and the dispatch itself changes nothing. The active state is
    the one from before the dispatch whenever the body announced no
    transition of its own before raising. *)
Theorem C1_update_swallows_WaitingForData `{Collaborators}
    (w w' : World) (s : loc) (o : State) :
  active_state (node w) = Some s →
  states w !! s = Some o →
  run (st_update o) s w = (Raised WaitingForData, w') →
  Node_update w = (Ok tt, w') ∧
  trace (snd (Node_update w)) = trace w' ∧
  (transitions w' = transitions w →
   active_state (node (snd (Node_update w))) = active_state (node w)).
Proof.
  intros Hact Hst Hrun.
  assert (Node_update w = (Ok tt, w')) as Hup.
  { unfold Node_update, except_WaitingForData, State_update, bind,
      get_active_state, get_state.
    by rewrite Hact, Hst, Hrun. }
  rewrite Hup. simpl. split_and!; [done..|].
  intros Ht. destruct (run_active_state (st_update o) s w) as [_ Heq].
  rewrite Hrun in Heq. by apply Heq.
Qed.

Lemma C1_update_swallows_WaitingForData_witness :
  Node_update demo_world_follow = (Ok tt, demo_world_follow) ∧
  trace (snd (Node_update demo_world_follow)) = trace demo_world_follow ∧
  (transitions demo_world_follow = transitions demo_world_follow →
   active_state (node (snd (Node_update demo_world_follow)))
   = active_state (node demo_world_follow)).
Proof.
  apply (C1_update_swallows_WaitingForData
           demo_world_follow demo_world_follow 2
           (demo_state (Some TheNode) follow_body)).
  - reflexivity.
  - vm_compute. reflexivity.
  - vm_compute. reflexivity.
Defined.

(** C2: when the active state's [update] raises an exception [e] other
    than [WaitingForData], [Node.update] raises the same [e] from the same
    world; the dispatch returns normally on an exception exactly when it is
    [WaitingForData]. *)
Theorem C2_update_propagates_other_exceptions `{Collaborators}
    (w w' : World) (s : loc) (o : State) (e : exn) :
  active_state (node w) = Some s →
  states w !! s = Some o →
  run (st_update o) s w = (Raised e, w') →
  (e ≠ WaitingForData → Node_update w = (Raised e, w')) ∧
  (fst (Node_update w) = Ok tt ↔ e = WaitingForData).
Proof.
  intros Hact Hst Hrun.
  assert (Node_update w
          = (if decide (e = WaitingForData) then Ok tt else Raised e, w'))
    as Hup.
  { unfold Node_update, except_WaitingForData, State_update, bind,
      get_active_state, get_state.
    rewrite Hact, Hst, Hrun. by destruct e. }
  rewrite Hup. simpl. split.
  - intros Hne. by rewrite decide_False.
  - destruct (decide (e = WaitingForData)); split; done.
Qed.

Lemma C2_update_propagates_other_exceptions_witness :
  (NotImplementedError ≠ WaitingForData →
   Node_update demo_world_abstract
   = (Raised NotImplementedError, demo_world_abstract)) ∧
  (fst (Node_update demo_world_abstract) = Ok tt
   ↔ NotImplementedError = WaitingForData).
Proof.
  apply (C2_update_propagates_other_exceptions
           demo_world_abstract demo_world_abstract 3
           (demo_state (Some TheNode) State_update_default)).
  - reflexivity.
  - vm_compute. reflexivity.
  - vm_compute. reflexivity.
Defined.


(** ** Transition: [Node.transition] *)

Lemma performs_wiring `{Collaborators} self p w op r w1 :
  performs self p w op r w1 →
  wiring w1 = wiring w ∧ r = fst (exec op self w1).
Proof.
  induction 1 as [op k w | op k w op' r' w1 _ [IHw IHr]]; [done|].
  split; [|done]. rewrite IHw. apply exec_wiring.
Qed.

Lemma wiring_sensors `{Collaborators} w1 w :
  wiring w1 = wiring w →
  fst (Node_odom w1) = fst (Node_odom w) ∧
  fst (Node_laser_point_cloud w1) = fst (Node_laser_point_cloud w) ∧
  fst (Node_laser_points w1) = fst (Node_laser_points w) ∧
  fst (Node_position w1) = fst (Node_position w) ∧
  fst (Node_orientation w1) = fst (Node_orientation w) ∧
  fst (Node_linear_vel w1) = fst (Node_linear_vel w) ∧
  fst (Node_angular_vel w1) = fst (Node_angular_vel w).
Proof.
  unfold wiring. intros [=Ho Hc _ _ _ _].
  unfold Node_laser_points, Node_position, Node_orientation,
    Node_linear_vel, Node_angular_vel, bind, ret, Node_odom,
    Node_laser_point_cloud.
  rewrite Ho, Hc.
  destruct (_odom (node w)), (_laser_point_cloud (node w)); done.
Qed.

Lemma State_deactivate_ok `{Collaborators} s o w :
  states w !! s = Some o →
  State_deactivate s w
  = (Ok tt, with_states <[s := set_st_node None o]> (emit (EvDeactivate s) w)).
Proof. intros Hs. unfold State_deactivate, bind, get_state. by rewrite Hs. Qed.

Lemma State_activate_ok `{Collaborators} s nd o w :
  states w !! s = Some o →
  State_activate s nd w
  = (Ok tt,
     with_states <[s := set_st_node (Some nd) o]> (emit (EvActivate s) w)).
Proof. intros Hs. unfold State_activate, bind, get_state. by rewrite Hs. Qed.

Lemma Node_transition_unfold `{Collaborators} to_node w s :
  active_state (node w) = Some s →
  Node_transition to_node w
  = match State_deactivate s (emit (EvPrint to_node) w) with
    | (Ok _, w1) =>
        State_activate to_node TheNode
          (with_node (set_active_state to_node) w1)
    | (Raised e, w1) => (Raised e, w1)
    end.
Proof.
  intros Hact. unfold Node_transition, bind, modify, get_active_state.
  simpl. rewrite Hact.
  by destruct (State_deactivate s (emit (EvPrint to_node) w)) as [[[]|e] w1].
Qed.

Lemma Node_transition_ok `{Collaborators} w S1 S2 o1 o2 :
  active_state (node w) = Some S1 →
  states w !! S1 = Some o1 →
  states w !! S2 = Some o2 →
  Node_transition S2 w
  = (Ok tt,
     with_states <[S2 := set_st_node (Some TheNode) o2]>
       (emit (EvActivate S2)
          (with_node (set_active_state S2)
             (with_states <[S1 := set_st_node None o1]>
                (emit (EvDeactivate S1) (emit (EvPrint S2) w)))))).
Proof.
  intros Hact Hst1 Hst2.
  rewrite (Node_transition_unfold S2 w S1 Hact).
  rewrite (State_deactivate_ok S1 o1) by done.
  destruct (decide (S1 = S2)) as [->|Hne].
  - rewrite (State_activate_ok S2 TheNode (set_st_node None o1))
      by (simpl; by rewrite lookup_insert_eq).
    by replace o2 with o1 by congruence.
  - rewrite (State_activate_ok S2 TheNode o2)
      by (simpl; by rewrite lookup_insert_ne).
    done.
Qed.

(** C3: with [S1] active and [S2] a state, [transition(S2)] announces the
    transition, calls [S1.deactivate()] while the slot still holds [S1],
    stores [S2] in the slot, and calls [S2.activate(node)]; each hook is
    entered once, in that order. The call returns normally, the active
    state is [S2], and the next dispatch runs the [update] body of [S2]. *)
Theorem C3_transition_deactivates_then_activates `{Collaborators}
    (w : World) (S1 S2 : loc) (o1 o2 : State) :
  active_state (node w) = Some S1 →
  states w !! S1 = Some o1 →
  states w !! S2 = Some o2 →
  let w0 := emit (EvPrint S2) w in
  let w1 := snd (State_deactivate S1 w0) in
  let w2 := with_node (set_active_state S2) w1 in
  let w3 := snd (State_activate S2 TheNode w2) in
  Node_transition S2 w = (Ok tt, w3) ∧
  fst (State_deactivate S1 w0) = Ok tt ∧
  fst (State_activate S2 TheNode w2) = Ok tt ∧
  active_state (node w1) = Some S1 ∧
  active_state (node w2) = Some S2 ∧
  active_state (node w3) = Some S2 ∧
  trace w3 = trace w ++ [EvPrint S2; EvDeactivate S1; EvActivate S2] ∧
  states w3 = <[S2 := set_st_node (Some TheNode) o2]>
                (<[S1 := set_st_node None o1]> (states w)) ∧
  Node_update w3 = except_WaitingForData (run (st_update o2) S2) w3.
Proof.
  intros Hact Hst1 Hst2 w0 w1 w2 w3.
  pose proof (State_deactivate_ok S1 o1 w0 Hst1) as Hd.
  assert (w1 = with_states <[S1 := set_st_node None o1]>
                 (emit (EvDeactivate S1) w0)) as Hw1
    by (unfold w1; by rewrite Hd).
  assert (∃ o2',
            states w2 !! S2 = Some o2' ∧
            set_st_node (Some TheNode) o2' = set_st_node (Some TheNode) o2 ∧
            st_update o2' = st_update o2) as (o2' & Hst2' & Hset & Hupd).
  { unfold w2. rewrite Hw1. simpl.
    destruct (decide (S1 = S2)) as [->|Hne].
    - exists (set_st_node None o1). rewrite lookup_insert_eq.
      by replace o2 with o1 by congruence.
    - exists o2. by rewrite lookup_insert_ne. }
  pose proof (State_activate_ok S2 TheNode o2' w2 Hst2') as Ha.
  rewrite Hset in Ha.
  assert (w3 = with_states <[S2 := set_st_node (Some TheNode) o2]>
                 (emit (EvActivate S2) w2)) as Hw3
    by (unfold w3; by rewrite Ha).
  split_and!.
  - rewrite (Node_transition_unfold S2 w S1 Hact). fold w0. rewrite Hd.
    rewrite <- Hw1. fold w2. by rewrite Ha, Hw3.
  - by rewrite Hd.
  - by rewrite Ha.
  - by rewrite Hw1.
  - done.
  - by rewrite Hw3.
  - rewrite Hw3. unfold w2. rewrite Hw1. simpl. by rewrite <- !app_assoc.
  - rewrite Hw3. unfold w2. by rewrite Hw1.
  - rewrite Hw3.
    unfold Node_update, except_WaitingForData, State_update, bind,
      get_active_state, get_state.
    simpl. by rewrite lookup_insert_eq.
Qed.

Lemma C3_transition_deactivates_then_activates_witness :
  let w0 := emit (EvPrint 2) demo_world in
  let w1 := snd (State_deactivate 1 w0) in
  let w2 := with_node (set_active_state 2) w1 in
  let w3 := snd (State_activate 2 TheNode w2) in
  Node_transition 2 demo_world = (Ok tt, w3) ∧
  fst (State_deactivate 1 w0) = Ok tt ∧
  fst (State_activate 2 TheNode w2) = Ok tt ∧
  active_state (node w1) = Some 1 ∧
  active_state (node w2) = Some 2 ∧
  active_state (node w3) = Some 2 ∧
  trace w3 = trace demo_world ++ [EvPrint 2; EvDeactivate 1; EvActivate 2] ∧
  states w3 = <[2 := set_st_node (Some TheNode) (demo_state None follow_body)]>
                (<[1 := set_st_node None
                          (demo_state (Some TheNode) handover_body)]>
                   (states demo_world)) ∧
  Node_update w3 = except_WaitingForData (run follow_body 2) w3.
Proof.
  apply (C3_transition_deactivates_then_activates demo_world 1 2
           (demo_state (Some TheNode) handover_body)
           (demo_state None follow_body)).
  - reflexivity.
  - vm_compute. reflexivity.
  - vm_compute. reflexivity.
Defined.

(** C9: whatever its outcome, [transition] leaves both cache slots (and
    the publishers) as they were; of the node it changes at most the
    active-state slot, and exactly that slot when it returns normally. So
    every sensor accessor answers after the transition as it did before,
    and every sensor read the next body performs gets the data delivered
    before the transition. *)
Theorem C9_transition_keeps_sensor_cache `{Collaborators}
    (to_node : loc) (w : World) :
  let w' := snd (Node_transition to_node w) in
  _odom (node w') = _odom (node w) ∧
  _laser_point_cloud (node w') = _laser_point_cloud (node w) ∧
  (node w' = node w ∨ node w' = set_active_state to_node (node w)) ∧
  (fst (Node_transition to_node w) = Ok tt →
   node w' = set_active_state to_node (node w)) ∧
  (fst (Node_odom w') = fst (Node_odom w) ∧
   fst (Node_laser_point_cloud w') = fst (Node_laser_point_cloud w) ∧
   fst (Node_laser_points w') = fst (Node_laser_points w) ∧
   fst (Node_position w') = fst (Node_position w) ∧
   fst (Node_orientation w') = fst (Node_orientation w) ∧
   fst (Node_linear_vel w') = fst (Node_linear_vel w) ∧
   fst (Node_angular_vel w') = fst (Node_angular_vel w)) ∧
  (∀ self p r w1, performs self p w' OpOdom r w1 →
                  r = fst (Node_odom w)) ∧
  (∀ self p r w1, performs self p w' OpLaserPointCloud r w1 →
                  r = fst (Node_laser_point_cloud w)).
Proof.
  intros w'.
  pose proof (Node_transition_wiring to_node w) as Hw. fold w' in Hw.
  pose proof Hw as [=Ho Hc _ _ _ _].
  pose proof (wiring_sensors w' w Hw) as (? & ? & ? & ? & ? & ? & ?).
  assert (∀ self p op r w1, performs self p w' op r w1 →
            wiring w1 = wiring w ∧ r = fst (exec op self w1)) as Hperf.
  { intros self p op r w1 Hp. apply performs_wiring in Hp as [Hw1 ->].
    by rewrite Hw1. }
  split_and!; try done.
  - subst w'. unfold Node_transition, State_activate, State_deactivate.
    unfold_M. simpl. repeat (case_match; simpl in * ); simplify_eq; eauto.
  - subst w'. unfold Node_transition, State_activate, State_deactivate.
    unfold_M. simpl. repeat (case_match; simpl in * ); simplify_eq; done.
  - intros self p r w1 Hp. apply Hperf in Hp as [Hw1 ->].
    simpl. by apply wiring_sensors.
  - intros self p r w1 Hp. apply Hperf in Hp as [Hw1 ->].
    simpl. by apply wiring_sensors.
Qed.

(** C10: [transition(S)] with [S] already active returns normally.
    [S.deactivate()] runs first and clears the back-reference of [S]: the
    [node] of [S] is [None] at that point. Then the slot is assigned [S]
    again and [S.activate(node)] binds the same object back: when the call
    returns [S] is the active state, its [node] is the node (and that is
    what [self.node] reads), and the rest of the object and every other
    state are as before. *)
Theorem C10_self_transition `{Collaborators} (w : World) (S : loc) (o : State) :
  active_state (node w) = Some S →
  states w !! S = Some o →
  let w1 := snd (State_deactivate S (emit (EvPrint S) w)) in
  let w' := snd (Node_transition S w) in
  fst (Node_transition S w) = Ok tt ∧
  states w1 !! S = Some (set_st_node None o) ∧
  st_node <$> states w1 !! S = Some None ∧
  fst (exec OpSelfNode S w1) = Ok None ∧
  active_state (node w') = Some S ∧
  states w' !! S = Some (set_st_node (Some TheNode) o) ∧
  st_node <$> states w' !! S = Some (Some TheNode) ∧
  fst (exec OpSelfNode S w') = Ok (Some TheNode) ∧
  default_params <$> states w' !! S = Some (default_params o) ∧
  st_attrs <$> states w' !! S = Some (st_attrs o) ∧
  st_update <$> states w' !! S = Some (st_update o) ∧
  (∀ s, s ≠ S → states w' !! s = states w !! s) ∧
  trace w' = trace w ++ [EvPrint S; EvDeactivate S; EvActivate S].
Proof.
  intros Hact Hst w1 w'.
  pose proof (Node_transition_ok w S S o o Hact Hst Hst) as Ht.
  unfold w', w1. rewrite Ht, (State_deactivate_ok S o) by done. simpl.
  unfold bind, get_state, ret. simpl.
  rewrite !lookup_insert_eq. simpl.
  split_and!; try done.
  - intros s Hne. by rewrite !lookup_insert_ne.
  - by rewrite <- !app_assoc.
Qed.

Lemma C10_self_transition_witness :
  let w1 := snd (State_deactivate 1 (emit (EvPrint 1) demo_world)) in
  let w' := snd (Node_transition 1 demo_world) in
  fst (Node_transition 1 demo_world) = Ok tt ∧
  states w1 !! 1 = Some (set_st_node None
                           (demo_state (Some TheNode) handover_body)) ∧
  @st_node demo_collab <$> states w1 !! 1 = Some None ∧
  fst (exec OpSelfNode 1 w1) = Ok None ∧
  active_state (node w') = Some 1 ∧
  states w' !! 1 = Some (set_st_node (Some TheNode)
                           (demo_state (Some TheNode) handover_body)) ∧
  @st_node demo_collab <$> states w' !! 1 = Some (Some TheNode) ∧
  fst (exec OpSelfNode 1 w') = Ok (Some TheNode) ∧
  @default_params demo_collab <$> states w' !! 1
  = Some (default_params (demo_state (Some TheNode) handover_body)) ∧
  @st_attrs demo_collab <$> states w' !! 1
  = Some (st_attrs (demo_state (Some TheNode) handover_body)) ∧
  @st_update demo_collab <$> states w' !! 1
  = Some (st_update (demo_state (Some TheNode) handover_body)) ∧
  (∀ s, s ≠ 1 → states w' !! s = states demo_world !! s) ∧
  trace w' = trace demo_world ++ [EvPrint 1; EvDeactivate 1; EvActivate 1].
Proof.
  apply (C10_self_transition demo_world 1
           (demo_state (Some TheNode) handover_body)).
  - reflexivity.
  - vm_compute. reflexivity.
Defined.

(** ** The sensor cache *)

Lemma slot_setattr `{Collaborators} a b (msg : msg_ty a) n :
  slot b (setattr a msg n)
  = match payload b (existT a msg) with
    | Some m => Some m
    | None => slot b n
    end.
Proof. by destruct a, b. Qed.

Lemma wiring_slot `{Collaborators} a w1 w :
  wiring w1 = wiring w → slot a (node w1) = slot a (node w).
Proof. unfold wiring. intros [=Ho Hc _ _ _ _]. by destruct a. Qed.

Lemma _handler_world `{Collaborators} a msg w :
  _handler a msg w = Node_update (with_node (setattr a msg) w).
Proof.
  unfold _handler, bind, modify.
  by destruct (Node_update (with_node (setattr a msg) w)) as [[[]|e] w1].
Qed.

Lemma _handler_slot `{Collaborators} a b msg w :
  slot b (node (snd (_handler a msg w)))
  = match payload b (existT a msg) with
    | Some m => Some m
    | None => slot b (node w)
    end.
Proof.
  rewrite _handler_world.
  rewrite (wiring_slot b _ _ (Node_update_wiring _)). simpl.
  apply slot_setattr.
Qed.

Lemma feed_slot `{Collaborators} a ds w :
  slot a (node (feed ds w))
  = match last_msg a ds with
    | Some m => Some m
    | None => slot a (node w)
    end.
Proof.
  revert w. induction ds as [|[b msg] ds IH]; intros w; [done|].
  unfold feed in *. simpl. rewrite IH, _handler_slot.
  by destruct (last_msg a ds).
Qed.

Lemma payload_None `{Collaborators} a d : payload a d = None ↔ projT1 d ≠ a.
Proof. destruct d as [b msg]. destruct a, b; simpl; split; done. Qed.

Lemma last_msg_None `{Collaborators} a ds :
  last_msg a ds = None ↔ never_received a ds.
Proof.
  unfold never_received. induction ds as [|d ds IH]; simpl.
  - split; [constructor|done].
  - rewrite Forall_cons, <- IH, <- payload_None.
    destruct (last_msg a ds); split; [done| by intros [? ?] |tauto|tauto].
Qed.

Lemma reads_channel_intro `{Collaborators} {B} (acc : M B) a f ds w :
  slot a (node w) = last_msg a ds →
  (∀ w, acc w = get_or_fail (slot a (node w)) f w) →
  reads_channel acc a f ds w.
Proof.
  intros Hs Hacc. unfold reads_channel. rewrite Hacc, Hs. split; [done|].
  rewrite <- last_msg_None. unfold get_or_fail.
  destruct (last_msg a ds); split; done.
Qed.

(** C4: starting from a node whose two slots are unset, after any sequence
    of callback invocations each of the seven accessors fails with
    [WaitingForData] if and only if no message was ever delivered on its
    channel, and otherwise returns the reading derived from the last
    message cached for that channel; nothing is substituted. *)
Theorem C4_accessors_fail_iff_channel_unset `{Collaborators}
    (ds : list delivery) (w0 : World) :
  _odom (node w0) = None →
  _laser_point_cloud (node w0) = None →
  let w := feed ds w0 in
  reads_channel Node_odom attr_odom (λ o, o) ds w ∧
  reads_channel Node_laser_point_cloud attr_laser_point_cloud (λ c, c) ds w ∧
  reads_channel Node_laser_points attr_laser_point_cloud
    pointcloud2_to_xyz_array ds w ∧
  reads_channel Node_position attr_odom
    (λ o, position (pwc_pose (odom_pose o))) ds w ∧
  reads_channel Node_orientation attr_odom
    (λ o, orientation (pwc_pose (odom_pose o))) ds w ∧
  reads_channel Node_linear_vel attr_odom
    (λ o, linear (twc_twist (odom_twist o))) ds w ∧
  reads_channel Node_angular_vel attr_odom
    (λ o, angular (twc_twist (odom_twist o))) ds w.
Proof.
  intros Ho Hc w.
  assert (∀ a, slot a (node w) = last_msg a ds) as Hs.
  { intros a. unfold w. rewrite feed_slot.
    destruct (last_msg a ds); [done|]. by destruct a. }
  split_and!; apply reads_channel_intro; try apply Hs; intros w1;
    unfold Node_laser_points, Node_position, Node_orientation,
      Node_linear_vel, Node_angular_vel, bind, ret, Node_odom,
      Node_laser_point_cloud, get_or_fail; simpl;
    by destruct (_odom (node w1)), (_laser_point_cloud (node w1)).
Qed.

Lemma C4_accessors_fail_iff_channel_unset_witness :
  let w := feed demo_deliveries demo_world in
  reads_channel Node_odom attr_odom (λ o, o) demo_deliveries w ∧
  reads_channel Node_laser_point_cloud attr_laser_point_cloud (λ c, c)
    demo_deliveries w ∧
  reads_channel Node_laser_points attr_laser_point_cloud
    pointcloud2_to_xyz_array demo_deliveries w ∧
  reads_channel Node_position attr_odom
    (λ o, position (pwc_pose (odom_pose o))) demo_deliveries w ∧
  reads_channel Node_orientation attr_odom
    (λ o, orientation (pwc_pose (odom_pose o))) demo_deliveries w ∧
  reads_channel Node_linear_vel attr_odom
    (λ o, linear (twc_twist (odom_twist o))) demo_deliveries w ∧
  reads_channel Node_angular_vel attr_odom
    (λ o, angular (twc_twist (odom_twist o))) demo_deliveries w.
Proof.
  apply (C4_accessors_fail_iff_channel_unset demo_deliveries demo_world);
    reflexivity.
Defined.

(** C7: a callback stores its message in its slot whatever the slot held,
    and leaves the other slot alone; the message is still there when the
    dispatch it triggers is over, since no call a body can make changes a
    slot. So after any sequence of callbacks a slot holds the last message
    of its channel, it is unset only if it was unset and no message of the
    channel came, and a set slot stays set. In the sequence set [A],
    dispatch, set [B], dispatch, every odometry read of the first dispatch
    gets [A] and every odometry read of the second gets [B]. *)
Theorem C7_cache_latest_wins `{Collaborators} :
  (∀ a msg w,
     _handler a msg w = Node_update (with_node (setattr a msg) w) ∧
     slot a (node (with_node (setattr a msg) w)) = Some msg ∧
     slot a (node (snd (_handler a msg w))) = Some msg ∧
     ∀ b, b ≠ a →
          slot b (node (snd (_handler a msg w))) = slot b (node w)) ∧
  (∀ a self p w op r w1,
     performs self p w op r w1 →
     slot a (node w1) = slot a (node w) ∧
     slot a (node (snd (run p self w))) = slot a (node w)) ∧
  (∀ a ds w,
     slot a (node (feed ds w))
     = match last_msg a ds with
       | Some m => Some m
       | None => slot a (node w)
       end) ∧
  (∀ a ds w,
     slot a (node w) = None →
     (slot a (node (feed ds w)) = None ↔ never_received a ds)) ∧
  (∀ a ds w,
     is_Some (slot a (node w)) → is_Some (slot a (node (feed ds w)))) ∧
  (∀ A B w,
     let wA := with_node (setattr attr_odom A) w in
     let w1 := snd (_handler attr_odom A w) in
     let wB := with_node (setattr attr_odom B) w1 in
     let w2 := snd (_handler attr_odom B w1) in
     _handler attr_odom A w = Node_update wA ∧
     _handler attr_odom B w1 = Node_update wB ∧
     Node_odom wA = (Ok A, wA) ∧
     Node_odom wB = (Ok B, wB) ∧
     (∀ self p r w', performs self p wA OpOdom r w' → r = Ok A) ∧
     (∀ self p r w', performs self p wB OpOdom r w' → r = Ok B) ∧
     _odom (node w1) = Some A ∧
     _odom (node w2) = Some B).
Proof.
  split_and!.
  - intros a msg w. split_and!.
    + apply _handler_world.
    + by destruct a.
    + rewrite _handler_slot. by destruct a.
    + intros b Hne. rewrite _handler_slot. by destruct a, b.
  - intros a self p w op r w1 Hp. split.
    + apply wiring_slot. by apply performs_wiring in Hp as [-> _].
    + apply wiring_slot, run_wiring.
  - apply @feed_slot.
  - intros a ds w Hs. rewrite feed_slot, Hs, <- last_msg_None.
    by destruct (last_msg a ds).
  - intros a ds w [m Hs]. rewrite feed_slot, Hs.
    by destruct (last_msg a ds).
  - intros A B w wA w1 wB w2.
    assert (∀ (C : Odometry) w self p r w',
              performs self p (with_node (setattr attr_odom C) w) OpOdom r w'
              → r = Ok C) as Hread.
    { intros C w3 self p r w' Hp. apply performs_wiring in Hp as [Hw ->].
      simpl. apply wiring_sensors in Hw as [-> _]. done. }
    split_and!; try done; try apply _handler_world; try apply Hread.
    + apply (_handler_slot attr_odom attr_odom A w).
    + apply (_handler_slot attr_odom attr_odom B w1).
Qed.

(** The sequence test on the state that drives at the measured speed:
    set [A], dispatch, set [B], dispatch publishes the speed of [A], then
    the speed of [B]. *)
Example follow_reads_A_then_B :
  trace (feed [existT attr_odom odom_A; existT attr_odom odom_B]
              demo_world_follow)
  = trace demo_world_follow ++
    [ EvPublishTwist "/cmd_vel" (velocity_command two zero);
      EvPublishTwist "/cmd_vel" (velocity_command one zero) ].
Proof. vm_compute. reflexivity. Qed.

(** A point cloud alone does not wake that state: the dispatch swallows
    [WaitingForData] and nothing is published. *)
Example follow_waits_for_odometry :
  let d := existT attr_laser_point_cloud [] : @delivery demo_collab in
  fst (_handler (projT1 d) (projT2 d) demo_world_follow) = Ok tt ∧
  trace (feed [d] demo_world_follow) = trace demo_world_follow.
Proof. vm_compute. done. Qed.

(** ** Actuation: [Node.set_speed] *)

(** C5, as stated, fails: [float('inf')] is not finite, yet
    [set_speed(inf, 2.0)] publishes it as the forward component instead
    of zero. *)
Lemma C5_infinite_speed_is_not_sanitized :
  isfinite inf = false ∧
  sanitize_non_finite inf = zero ∧
  Node_set_speed inf two demo_world
  = (Ok tt,
     emit (EvPublishTwist "/cmd_vel" (velocity_command inf two))
          demo_world) ∧
  velocity_command inf two
  ≠ velocity_command (sanitize_non_finite inf) (sanitize_non_finite two).
Proof. repeat split. discriminate. Qed.

(** C5 (amended): on a constructed node, [set_speed(forward, angular)]
    replaces each NaN input by zero, passes every other input on as it is,
    and publishes exactly one velocity command on the velocity topic, with
    the forward value as linear [x] and the angular value as angular [z];
    it returns normally. In particular [set_speed(NaN, 2.0)] publishes
    forward 0 and angular 2.0, and [set_speed(1.0, NaN)] publishes forward
    1.0 and angular 0. *)
Theorem C5_set_speed_sanitizes_nan `{Collaborators}
    (forward angular : pyfloat) (w : World) (p : Publisher) :
  velocity_pub (node w) = Some p →
  let forward' := if isnan forward then zero else forward in
  let angular' := if isnan angular then zero else angular in
  Node_set_speed forward angular w
  = (Ok tt,
     emit (EvPublishTwist (pub_topic p) (velocity_command forward' angular'))
          w) ∧
  trace (snd (Node_set_speed forward angular w))
  = trace w ++ [EvPublishTwist (pub_topic p)
                  (velocity_command forward' angular')] ∧
  (isnan forward = false → forward' = forward) ∧
  (isnan angular = false → angular' = angular) ∧
  Node_set_speed S754_nan two w
  = (Ok tt,
     emit (EvPublishTwist (pub_topic p) (velocity_command zero two)) w) ∧
  Node_set_speed one S754_nan w
  = (Ok tt,
     emit (EvPublishTwist (pub_topic p) (velocity_command one zero)) w).
Proof.
  intros Hp forward' angular'.
  assert (∀ f a, Node_set_speed f a w
                 = (Ok tt,
                    emit (EvPublishTwist (pub_topic p)
                            (velocity_command (if isnan f then zero else f)
                                              (if isnan a then zero else a)))
                         w)) as Hs.
  { intros f a.
    unfold Node_set_speed, bind, get_velocity_pub, publish_twist, modify.
    by rewrite Hp. }
  split_and!.
  - apply Hs.
  - by rewrite Hs.
  - unfold forward'. by intros ->.
  - unfold angular'. by intros ->.
  - apply Hs.
  - apply Hs.
Qed.

Lemma C5_set_speed_sanitizes_nan_witness :
  let forward' := if isnan inf then zero else inf in
  let angular' := if isnan S754_nan then zero else S754_nan in
  Node_set_speed inf S754_nan demo_world
  = (Ok tt,
     emit (EvPublishTwist "/cmd_vel" (velocity_command forward' angular'))
          demo_world) ∧
  trace (snd (Node_set_speed inf S754_nan demo_world))
  = trace demo_world ++ [EvPublishTwist "/cmd_vel"
                           (velocity_command forward' angular')] ∧
  (isnan inf = false → forward' = inf) ∧
  (isnan S754_nan = false → angular' = S754_nan) ∧
  Node_set_speed S754_nan two demo_world
  = (Ok tt,
     emit (EvPublishTwist "/cmd_vel" (velocity_command zero two))
          demo_world) ∧
  Node_set_speed one S754_nan demo_world
  = (Ok tt,
     emit (EvPublishTwist "/cmd_vel" (velocity_command one zero))
          demo_world).
Proof.
  apply (C5_set_speed_sanitizes_nan inf S754_nan demo_world
           {| pub_topic := "/cmd_vel" |}).
  reflexivity.
Defined.

(** ** Construction: [Node.__init__] *)



(** ** Configuration: [State.params] and [Node.param] *)

Lemma params_items_ok `{Collaborators} self o nd items acc w :
  states w !! self = Some o →
  st_node o = Some nd →
  NoDup items.*1 →
  ∃ m, params_items self items acc w = (Ok m, w) ∧
       ∀ name,
         m !! name
         = match (list_to_map items : gmap string pyvalue) !! name with
           | Some d => Some (default d (param_server w !! ("~" +:+ name)))
           | None => acc !! name
           end.
Proof.
  intros Hst Hnd. revert acc.
  induction items as [|[n v] rest IH]; intros acc Hdup.
  - exists acc. split; [done|]. intros name.
    change (list_to_map [] : gmap string pyvalue)
      with (∅ : gmap string pyvalue).
    by rewrite lookup_empty.
  - apply NoDup_cons in Hdup as [Hn Hdup].
    destruct (IH (<[n := default v (param_server w !! ("~" +:+ n))]> acc) Hdup)
      as (m & Hm & Hl).
    exists m. split.
    + simpl. unfold bind, get_state. rewrite Hst, Hnd.
      unfold Node_param, rospy_get_param, gets. apply Hm.
    + intros name. rewrite Hl. simpl.
      destruct (decide (n = name)) as [<-|Hne].
      * rewrite (not_elem_of_list_to_map_1 _ _ Hn).
        by rewrite !lookup_insert_eq.
      * by rewrite !lookup_insert_ne.
Qed.

(** C8: for a state bound to the node, [params] returns normally and
    changes nothing; the mapping has exactly the keys of the state's
    [default_params], and each key [name] maps to what the node's [param]
    gives for it: the value stored under the private name ["~" + name]
    if there is one, the declared default otherwise. [param] itself always
    returns normally. *)
Theorem C8_params_resolve_declared_defaults `{Collaborators}
    (w : World) (self : loc) (o : State) (nd : node_ref) :
  states w !! self = Some o →
  st_node o = Some nd →
  ∃ m : gmap string pyvalue,
    State_params self w = (Ok m, w) ∧
    dom m = dom (default_params o) ∧
    (∀ name d,
       default_params o !! name = Some d →
       ∃ v, Node_param name d w = (Ok v, w) ∧ m !! name = Some v) ∧
    (∀ name, default_params o !! name = None → m !! name = None) ∧
    (∀ name d,
       Node_param name d w
       = (Ok (match param_server w !! ("~" +:+ name) with
              | Some v => v
              | None => d
              end), w)).
Proof.
  intros Hst Hnd.
  destruct (params_items_ok self o nd (map_to_list (default_params o)) ∅ w
              Hst Hnd (NoDup_fst_map_to_list _)) as (m & Hm & Hl).
  assert (∀ name,
            m !! name
            = (λ d, default d (param_server w !! ("~" +:+ name)))
                <$> default_params o !! name) as Hl'.
  { intros name. rewrite Hl, list_to_map_to_list, lookup_empty.
    by destruct (default_params o !! name). }
  exists m. split_and!.
  - unfold State_params, bind, get_state. by rewrite Hst.
  - apply set_eq. intros name. rewrite !elem_of_dom, Hl'.
    by rewrite fmap_is_Some.
  - intros name d Hd. eexists. split; [done|]. by rewrite Hl', Hd.
  - intros name Hd. by rewrite Hl', Hd.
  - intros name d. unfold Node_param, rospy_get_param, gets.
    by destruct (param_server w !! ("~" +:+ name)).
Qed.

Lemma C8_params_resolve_declared_defaults_witness :
  ∃ m : gmap string pyvalue,
    State_params 1 demo_world = (Ok m, demo_world) ∧
    dom m = dom (default_params (demo_state (Some TheNode) handover_body)) ∧
    (∀ name d,
       default_params (demo_state (Some TheNode) handover_body) !! name
       = Some d →
       ∃ v, Node_param name d demo_world = (Ok v, demo_world)
            ∧ m !! name = Some v) ∧
    (∀ name,
       default_params (demo_state (Some TheNode) handover_body) !! name = None
       → m !! name = None) ∧
    (∀ name d,
       Node_param name d demo_world
       = (Ok (match param_server demo_world !! ("~" +:+ name) with
              | Some v => v
              | None => d
              end), demo_world)).
Proof.
  apply (C8_params_resolve_declared_defaults demo_world 1
           (demo_state (Some TheNode) handover_body) TheNode).
  - vm_compute. reflexivity.
  - reflexivity.
Defined.

(** The parameters of the active example state: [gain] is set on the
    server, [name] falls back to its default. *)
Example demo_params :
  fst (State_params 1 demo_world)
  = Ok ({[ "gain" := VInt 7; "name" := VStr "neato" ]} : gmap string pyvalue).
Proof. vm_compute. reflexivity. Qed.

(** A state that is not bound to the node has no [params]: [self.node] is
    [None] and [self.node.param] fails. *)
Example unbound_params_fail :
  fst (State_params 2 demo_world) = Raised AttributeError.
Proof. vm_compute. reflexivity. Qed.

(** * Further properties of the harness *)

(** ** The outcomes of the lifecycle calls, case by case *)

Lemma State_deactivate_cases `{Collaborators} s w :
  State_deactivate s w
  = match states w !! s with
    | Some o =>
        (Ok tt,
         with_states <[s := set_st_node None o]> (emit (EvDeactivate s) w))
    | None => (Raised AttributeError, w)
    end.
Proof.
  unfold State_deactivate, bind, get_state. by destruct (states w !! s).
Qed.

Lemma State_activate_cases `{Collaborators} s nd w :
  State_activate s nd w
  = match states w !! s with
    | Some o =>
        (Ok tt,
         with_states <[s := set_st_node (Some nd) o]>
           (emit (EvActivate s) w))
    | None => (Raised AttributeError, w)
    end.
Proof.
  unfold State_activate, bind, get_state. by destruct (states w !! s).
Qed.

Lemma Node_transition_cases `{Collaborators} to_node w :
  Node_transition to_node w
  = let w0 := emit (EvPrint to_node) w in
    match active_state (node w) with
    | None => (Raised AttributeError, w0)
    | Some s =>
        match states w !! s with
        | None => (Raised AttributeError, w0)
        | Some o =>
            let w1 := with_states <[s := set_st_node None o]>
                        (emit (EvDeactivate s) w0) in
            let w2 := with_node (set_active_state to_node) w1 in
            match states w1 !! to_node with
            | None => (Raised AttributeError, w2)
            | Some o2 =>
                (Ok tt,
                 with_states <[to_node := set_st_node (Some TheNode) o2]>
                   (emit (EvActivate to_node) w2))
            end
        end
    end.
Proof.
  unfold Node_transition, bind, modify, get_active_state. simpl.
  destruct (active_state (node w)) as [s|]; [|done].
  rewrite State_deactivate_cases. simpl.
  destruct (states w !! s) as [o|]; [|done].
  rewrite State_activate_cases. simpl.
  by destruct (<[s:=set_st_node None o]> (states w) !! to_node).
Qed.

(** ** The objects of the heap stay what they are *)

Lemma same_bodies_refl `{Collaborators} w w' :
  states w' = states w → same_bodies w w'.
Proof. unfold same_bodies. by intros ->. Qed.

Lemma same_bodies_trans `{Collaborators} w1 w2 w3 :
  same_bodies w1 w2 → same_bodies w2 w3 → same_bodies w1 w3.
Proof. unfold same_bodies. intros H12 H23 s. by rewrite H23. Qed.

Lemma same_bodies_dom `{Collaborators} w w' :
  same_bodies w w' → dom (states w') = dom (states w).
Proof.
  intros Hsb. apply set_eq. intros s. rewrite !elem_of_dom.
  rewrite <- !(fmap_is_Some st_update). by rewrite Hsb.
Qed.

Lemma insert_same_body `{Collaborators} (m : gmap loc State) s o o' s' :
  m !! s = Some o →
  st_update o' = st_update o →
  st_update <$> <[s := o']> m !! s' = st_update <$> m !! s'.
Proof.
  intros Hs Hu. destruct (decide (s = s')) as [<-|Hne].
  - rewrite lookup_insert_eq, Hs. simpl. by rewrite Hu.
  - by rewrite lookup_insert_ne.
Qed.

Lemma Node_transition_same_bodies `{Collaborators} to_node w :
  same_bodies w (snd (Node_transition to_node w)).
Proof.
  rewrite Node_transition_cases. simpl.
  destruct (active_state (node w)) as [s1|]; [|by apply same_bodies_refl].
  destruct (states w !! s1) as [o1|] eqn:Hs1; [|by apply same_bodies_refl].
  destruct (<[s1:=set_st_node None o1]> (states w) !! to_node)
    as [o2|] eqn:Hto; simpl; intros s; simpl.
  - rewrite (insert_same_body _ to_node o2) by done.
    by rewrite (insert_same_body _ s1 o1).
  - by rewrite (insert_same_body _ s1 o1).
Qed.

Lemma exec_same_bodies `{Collaborators} op self w :
  same_bodies w (snd (exec op self w)).
Proof.
  destruct op; simpl;
    try (by rewrite State_params_world; apply same_bodies_refl);
    try (by apply Node_transition_same_bodies);
    try (apply same_bodies_refl;
         unfold Node_laser_points, Node_position, Node_orientation,
           Node_linear_vel, Node_angular_vel, Node_odom,
           Node_laser_point_cloud, Node_set_speed, Node_mark_target,
           Node_param, rospy_get_param, publish_twist, publish_marker;
         by crush_M);
    unfold bind, get_state, modify;
    (destruct (states w !! self) as [o|] eqn:Hs;
       [|by apply same_bodies_refl]);
    intros s; simpl; by rewrite (insert_same_body _ self o).
Qed.

Lemma run_same_bodies `{Collaborators} p self w :
  same_bodies w (snd (run p self w)).
Proof.
  revert w. induction p as [| e | op k IH]; intros w;
    [by apply same_bodies_refl..|].
  simpl. pose proof (exec_same_bodies op self w) as H1.
  destruct (exec op self w) as [r w1].
  by apply (same_bodies_trans w w1), IH.
Qed.

Lemma Node_update_world `{Collaborators} w :
  snd (Node_update w)
  = match active_state (node w) with
    | Some s =>
        match states w !! s with
        | Some o => snd (run (st_update o) s w)
        | None => w
        end
    | None => w
    end.
Proof.
  unfold Node_update. rewrite except_WaitingForData_world.
  unfold State_update, bind, get_active_state, get_state.
  destruct (active_state (node w)) as [s|]; [|done].
  by destruct (states w !! s).
Qed.

Lemma _handler_same_bodies `{Collaborators} a msg w :
  same_bodies w (snd (_handler a msg w)).
Proof.
  rewrite _handler_world, Node_update_world.
  set (w1 := with_node (setattr a msg) w).
  assert (same_bodies w w1) as H1 by (by apply same_bodies_refl).
  destruct (active_state (node w1)) as [s|]; [|done].
  destruct (states w1 !! s) as [o|]; [|done].
  apply (same_bodies_trans w w1); [done|apply run_same_bodies].
Qed.

Lemma closed_heap_same_bodies `{Collaborators} w w' :
  same_bodies w w' → closed_heap w → closed_heap w'.
Proof.
  intros Hsb Hc s o' Hs. rewrite (same_bodies_dom w w' Hsb).
  pose proof (Hsb s) as Hbody. rewrite Hs in Hbody. simpl in Hbody.
  destruct (states w !! s) as [o|] eqn:Hs0; [|done].
  injection Hbody as ->. by apply (Hc s o).
Qed.

Lemma harness_binds_same_bodies `{Collaborators} w w' :
  same_bodies w w' → harness_binds w → harness_binds w'.
Proof.
  intros Hsb Hc s o' Hs.
  pose proof (Hsb s) as Hbody. rewrite Hs in Hbody. simpl in Hbody.
  destruct (states w !! s) as [o|] eqn:Hs0; [|done].
  injection Hbody as ->. by apply (Hc s o).
Qed.

Lemma active_state_setattr `{Collaborators} a msg n :
  active_state (setattr a msg n) = active_state n.
Proof. by destruct a. Qed.

Lemma Node_init_cases `{Collaborators} S0 name w :
  Node_init S0 name w
  = match states w !! S0 with
    | Some o => (Ok tt, constructed S0 name o w)
    | None =>
        (Raised AttributeError,
         with_node (set_active_state S0) (emit (EvInitNode name) w))
    end.
Proof.
  unfold Node_init, _subscribe, bind, modify, get_active_state. simpl.
  rewrite State_activate_cases. simpl.
  by destruct (states w !! S0).
Qed.

Lemma Node_init_same_bodies `{Collaborators} S0 name w :
  same_bodies w (snd (Node_init S0 name w)).
Proof.
  rewrite Node_init_cases.
  destruct (states w !! S0) as [o0|] eqn:HS0; simpl;
    [|by apply same_bodies_refl].
  intros s. unfold constructed. simpl.
  by rewrite (insert_same_body _ S0 o0).
Qed.

(** ** Who holds the back-reference *)

Lemma sole_owner_frame `{Collaborators} w w' :
  states w' = states w →
  active_state (node w') = active_state (node w) →
  sole_owner w → sole_owner w'.
Proof. unfold sole_owner. intros -> ->. done. Qed.

Lemma Node_transition_sole_owner `{Collaborators} to_node w :
  sole_owner w → sole_owner (snd (Node_transition to_node w)).
Proof.
  intros Hso. rewrite Node_transition_cases. simpl.
  destruct (active_state (node w)) as [s1|] eqn:Hact;
    [|by apply (sole_owner_frame w)].
  destruct (states w !! s1) as [o1|] eqn:Hs1;
    [|by apply (sole_owner_frame w)].
  assert (∀ s o, <[s1 := set_st_node None o1]> (states w) !! s = Some o →
                 st_node o = None) as Hnone.
  { intros s o. destruct (decide (s1 = s)) as [<-|Hne].
    - rewrite lookup_insert_eq. by intros [= <-].
    - rewrite lookup_insert_ne by done. intros Hs.
      destruct (st_node o) eqn:Hn; [|done].
      assert (active_state (node w) = Some s) as Hs'
        by (apply (Hso s o Hs); by rewrite Hn).
      congruence. }
  destruct (<[s1:=set_st_node None o1]> (states w) !! to_node)
    as [o2|] eqn:Hto; simpl.
  - intros s o. simpl. destruct (decide (to_node = s)) as [<-|Hne]; [done|].
    rewrite lookup_insert_ne by done. intros Hs [nd Hnd].
    by rewrite (Hnone s o Hs) in Hnd.
  - intros s o. simpl. intros Hs [nd Hnd].
    by rewrite (Hnone s o Hs) in Hnd.
Qed.

Lemma exec_sole_owner `{Collaborators} op self w :
  match op with OpSetNode _ => False | _ => True end →
  sole_owner w → sole_owner (snd (exec op self w)).
Proof.
  intros Hop Hso.
  destruct op; simpl; try done;
    try (by rewrite State_params_world);
    try (by apply Node_transition_sole_owner);
    try (apply (sole_owner_frame w); [| |done];
         unfold Node_laser_points, Node_position, Node_orientation,
           Node_linear_vel, Node_angular_vel, Node_odom,
           Node_laser_point_cloud, Node_set_speed, Node_mark_target,
           Node_param, rospy_get_param, publish_twist, publish_marker;
         by crush_M).
  unfold bind, get_state, modify.
  destruct (states w !! self) as [o|] eqn:Hs; [|done]. simpl.
  intros s o'. simpl. destruct (decide (self = s)) as [<-|Hne].
  - rewrite lookup_insert_eq. intros [= <-]. simpl. by apply Hso.
  - rewrite lookup_insert_ne by done. apply Hso.
Qed.

Lemma run_sole_owner `{Collaborators} p self w :
  keeps_node p → sole_owner w → sole_owner (snd (run p self w)).
Proof.
  revert w. induction p as [| e | op k IH]; intros w Hk Hso; [done..|].
  simpl in *. destruct Hk as [Hop Hk].
  pose proof (exec_sole_owner op self w Hop Hso) as Hso1.
  destruct (exec op self w) as [r w1]. by apply IH.
Qed.

Lemma _handler_sole_owner `{Collaborators} a msg w :
  harness_binds w → sole_owner w → sole_owner (snd (_handler a msg w)).
Proof.
  intros Hb Hso. rewrite _handler_world, Node_update_world.
  set (w1 := with_node (setattr a msg) w).
  assert (sole_owner w1) as Hso1
    by (apply (sole_owner_frame w); [done| |done];
        apply active_state_setattr).
  destruct (active_state (node w1)) as [s|]; [|done].
  destruct (states w1 !! s) as [o|] eqn:Hs; [|done].
  apply run_sole_owner; [by apply (Hb s o)|done].
Qed.

Lemma feed_sole_owner `{Collaborators} ds w :
  harness_binds w → sole_owner w → sole_owner (feed ds w).
Proof.
  revert w. induction ds as [|[a msg] ds IH]; intros w Hb Hso; [done|].
  unfold feed in *. simpl. apply IH.
  - apply (harness_binds_same_bodies w); [|done].
    apply _handler_same_bodies.
  - by apply _handler_sole_owner.
Qed.

(** X1: suppose no state holds a back-reference before the node is
    constructed, and no [update] body assigns [self.node] itself, so that
    [activate] and [deactivate] are its only writers. Then after
    construction and after any sequence of callbacks, whether or not
    calls fail, a state that holds a back-reference is the active state:
    a deactivated state never keeps the node, and no two states hold
    it. *)
Theorem back_reference_belongs_to_active_state `{Collaborators}
    (w0 : World) (S0 : loc) (name : string) (ds : list delivery) :
  (∀ s o, states w0 !! s = Some o → st_node o = None) →
  harness_binds w0 →
  sole_owner (feed ds (snd (Node_init S0 name w0))).
Proof.
  intros Hnone Hb. apply feed_sole_owner.
  { apply (harness_binds_same_bodies w0); [|done].
    apply Node_init_same_bodies. }
  rewrite Node_init_cases.
  destruct (states w0 !! S0) as [o0|] eqn:HS0; simpl.
  - intros s o. simpl. destruct (decide (S0 = s)) as [<-|Hne]; [done|].
    rewrite lookup_insert_ne by done. intros Hs [nd Hnd].
    by rewrite (Hnone s o Hs) in Hnd.
  - intros s o. simpl. intros Hs [nd Hnd].
    by rewrite (Hnone s o Hs) in Hnd.
Qed.

(** The three example bodies leave [self.node] alone and hand over only
    to state [2]. *)
Lemma demo_heap_bodies (s : loc) (o : @State demo_collab) :
  demo_heap !! s = Some o →
  keeps_node (st_update o) ∧ targets_in (dom demo_heap) (st_update o).
Proof.
  intros Hs. unfold demo_heap in *.
  assert (2 ∈ dom demo_heap) as H2
    by (apply elem_of_dom; vm_compute; eauto).
  apply lookup_insert_Some in Hs as [[_ <-]|[_ Hs]].
  { simpl. split; (split; [done|]); intros [[nd|]|e]; simpl; try done.
    - split; [done|]. intros [[]|e]; simpl; [|done].
      split; [done|]. by intros [?|?].
    - split; [exact H2|]. intros [[]|e]; simpl; [|done].
      split; [done|]. by intros [?|?]. }
  apply lookup_insert_Some in Hs as [[_ <-]|[_ Hs]].
  { simpl. split; (split; [done|]); intros [v|e]; simpl; try done;
      (split; [done|]); by intros [?|?]. }
  by apply lookup_singleton_Some in Hs as [_ <-].
Qed.

Lemma back_reference_belongs_to_active_state_witness :
  sole_owner (feed demo_deliveries (snd (Node_init 1 "demo" demo_world0))).
Proof.
  apply (back_reference_belongs_to_active_state
           demo_world0 1 "demo" demo_deliveries).
  - intros s o Hs. unfold demo_world0, demo_heap in Hs. simpl in Hs.
    apply lookup_insert_Some in Hs as [[_ <-]|[_ Hs]]; [done|].
    apply lookup_insert_Some in Hs as [[_ <-]|[_ Hs]]; [done|].
    by apply lookup_singleton_Some in Hs as [_ <-].
  - intros s o Hs. by apply (demo_heap_bodies s o).
Defined.

(** ** There is always an active state *)

Lemma Node_transition_active_bound `{Collaborators} to_node w :
  to_node ∈ dom (states w) →
  active_bound w → active_bound (snd (Node_transition to_node w)).
Proof.
  intros Hto (s1 & o1 & Hact & Hs1 & _). rewrite Node_transition_cases.
  simpl. rewrite Hact, Hs1.
  apply elem_of_dom in Hto as [o2 Hto].
  assert (is_Some (<[s1:=set_st_node None o1]> (states w) !! to_node))
    as [o2' Hto'].
  { destruct (decide (s1 = to_node)) as [<-|Hne].
    - rewrite lookup_insert_eq. eauto.
    - rewrite lookup_insert_ne by done. eauto. }
  rewrite Hto'. simpl.
  exists to_node, (set_st_node (Some TheNode) o2'). simpl.
  by rewrite lookup_insert_eq.
Qed.

Lemma active_bound_frame `{Collaborators} w w' :
  states w' = states w →
  active_state (node w') = active_state (node w) →
  active_bound w → active_bound w'.
Proof. unfold active_bound. intros -> ->. done. Qed.

Lemma exec_active_bound `{Collaborators} op self w :
  match op with
  | OpTransition to_node => to_node ∈ dom (states w)
  | OpSetNode _ => False
  | _ => True
  end →
  active_bound w → active_bound (snd (exec op self w)).
Proof.
  intros Hop Hab.
  destruct op; simpl; try done;
    try (by rewrite State_params_world);
    try (by apply Node_transition_active_bound);
    try (apply (active_bound_frame w); [| |done];
         unfold Node_laser_points, Node_position, Node_orientation,
           Node_linear_vel, Node_angular_vel, Node_odom,
           Node_laser_point_cloud, Node_set_speed, Node_mark_target,
           Node_param, rospy_get_param, publish_twist, publish_marker;
         by crush_M).
  unfold bind, get_state, modify.
  destruct (states w !! self) as [o|] eqn:Hs; [|done]. simpl.
  destruct Hab as (s1 & o1 & Hact & Hs1 & Hb).
  destruct (decide (self = s1)) as [->|Hne].
  - exists s1, (set_st_attr (own_name a) v o). simpl.
    rewrite lookup_insert_eq. split_and!; [done..|]. congruence.
  - exists s1, o1. simpl. by rewrite lookup_insert_ne.
Qed.

Lemma run_active_bound `{Collaborators} p self w :
  targets_in (dom (states w)) p →
  keeps_node p →
  active_bound w → active_bound (snd (run p self w)).
Proof.
  revert w. induction p as [| e | op k IH]; intros w Ht Hkn Hab; [done..|].
  simpl in *. destruct Ht as [Hop Hk]. destruct Hkn as [Hop' Hkn].
  pose proof (exec_active_bound op self w) as Hab1.
  pose proof (exec_same_bodies op self w) as Hsb.
  destruct (exec op self w) as [r w1]. simpl in *.
  apply IH.
  - rewrite (same_bodies_dom w w1 Hsb). apply Hk.
  - apply Hkn.
  - apply Hab1; [|done]. by destruct op.
Qed.

Lemma _handler_active_bound `{Collaborators} a msg w :
  closed_heap w → harness_binds w →
  active_bound w → active_bound (snd (_handler a msg w)).
Proof.
  intros Hc Hb Hab. rewrite _handler_world, Node_update_world.
  set (w1 := with_node (setattr a msg) w).
  assert (active_bound w1) as Hab1
    by (apply (active_bound_frame w); [done| |done];
        apply active_state_setattr).
  destruct (active_state (node w1)) as [s|]; [|done].
  destruct (states w1 !! s) as [o|] eqn:Hs; [|done].
  apply run_active_bound; [by apply (Hc s o)|by apply (Hb s o)|done].
Qed.

Lemma feed_active_bound `{Collaborators} ds w :
  closed_heap w → harness_binds w →
  active_bound w → active_bound (feed ds w).
Proof.
  revert w. induction ds as [|[a msg] ds IH]; intros w Hc Hb Hab; [done|].
  unfold feed in *. simpl. apply IH.
  - apply (closed_heap_same_bodies w); [|done]. apply _handler_same_bodies.
  - apply (harness_binds_same_bodies w); [|done].
    apply _handler_same_bodies.
  - by apply _handler_active_bound.
Qed.

(** X2: suppose the starting state is a [State], every [update] body of
    the heap only ever transitions to states of the heap, and no body
    assigns [self.node] itself. Then after construction and after any
    sequence of callbacks the slot holds a [State] whose [node] is the
    node: the node is never left without an active, bound state. *)
Theorem always_an_active_bound_state `{Collaborators}
    (w0 : World) (S0 : loc) (o0 : State) (name : string)
    (ds : list delivery) :
  states w0 !! S0 = Some o0 →
  closed_heap w0 →
  harness_binds w0 →
  active_bound (feed ds (snd (Node_init S0 name w0))).
Proof.
  intros HS0 Hc Hb.
  pose proof (Node_init_same_bodies S0 name w0) as Hsb.
  apply feed_active_bound.
  - by apply (closed_heap_same_bodies w0).
  - by apply (harness_binds_same_bodies w0).
  - rewrite Node_init_cases, HS0. simpl.
    exists S0, (set_st_node (Some TheNode) o0). unfold constructed. simpl.
    by rewrite lookup_insert_eq.
Qed.

Lemma always_an_active_bound_state_witness :
  active_bound (feed demo_deliveries (snd (Node_init 1 "demo" demo_world0))).
Proof.
  apply (always_an_active_bound_state demo_world0 1
           (demo_state None handover_body) "demo" demo_deliveries).
  - vm_compute. reflexivity.
  - intros s o Hs. by apply (demo_heap_bodies s o).
  - intros s o Hs. by apply (demo_heap_bodies s o).
Defined.

(** The condition on the bodies is needed. A state that takes the node
    back after handing over holds a back-reference without being the
    active state. *)
Example rebinding_body_keeps_the_node :
  let w : @World demo_collab :=
    snd (Node_update (snd (Node_init 7 "demo" demo_world0_rebind))) in
  active_state (node w) = Some 2 ∧
  fst (exec OpSelfNode 7 w) = Ok (Some TheNode) ∧
  fst (exec OpSelfNode 2 w) = Ok (Some TheNode).
Proof. vm_compute. done. Qed.

(** And a state whose body is [self.node = None] is still in the slot
    after its first dispatch, but it is no longer bound. *)
Example unbinding_body_leaves_active_state_unbound :
  let w : @World demo_collab :=
    snd (Node_update (snd (Node_init 6 "demo" demo_world0_unbind))) in
  active_state (node w) = Some 6 ∧
  states w !! 6 = Some (demo_state None unbind_body) ∧
  fst (exec OpSelfNode 6 w) = Ok None.
Proof. vm_compute. done. Qed.

(** An attribute of the subclass is the state's own business: writing
    it and reading it back changes neither [self.node] nor the node, and
    the names of [class State] are not among such attributes. *)
Example own_attributes_are_apart :
  let w0 : @World demo_collab := snd (Node_init 8 "demo" demo_world0_ticking) in
  Node_update w0
  = (Ok tt, with_states <[8 := set_st_attr "ticks" (VInt 1)
                                  (demo_state (Some TheNode) ticking_body)]> w0)
  ∧ fst (exec OpSelfNode 8 (snd (Node_update w0))) = Ok (Some TheNode)
  ∧ is_State_attribute "node" = true
  ∧ is_State_attribute "default_params" = true
  ∧ is_State_attribute "update" = true
  ∧ is_State_attribute "__class__" = true.
Proof. vm_compute. done. Qed.

(** ** A transition that fails half way *)

Lemma Node_update_no_state `{Collaborators} w bad :
  active_state (node w) = Some bad →
  states w !! bad = None →
  Node_update w = (Raised AttributeError, w).
Proof.
  intros Hact Hbad.
  unfold Node_update, except_WaitingForData, State_update, bind,
    get_active_state, get_state.
  by rewrite Hact, Hbad.
Qed.

Lemma feed_no_state `{Collaborators} ds w bad :
  active_state (node w) = Some bad →
  states w !! bad = None →
  active_state (node (feed ds w)) = Some bad ∧
  states (feed ds w) = states w ∧
  trace (feed ds w) = trace w.
Proof.
  revert w. induction ds as [|[a msg] ds IH]; intros w Hact Hbad; [done|].
  assert (active_state (node (with_node (setattr a msg) w)) = Some bad)
    as Hact1 by (rewrite <- Hact; apply active_state_setattr).
  destruct (IH (with_node (setattr a msg) w) Hact1 Hbad) as (Ha & Hs & Ht).
  unfold feed in *. simpl. rewrite _handler_world.
  by rewrite (Node_update_no_state _ bad).
Qed.

(** X3: [transition(x)] where [x] is not a [State] raises
    [AttributeError], but only after the old state was deactivated and the
    slot overwritten: nothing is rolled back. From then on the node has no
    state to run: every later callback still caches its message, then
    raises [AttributeError], and nothing is published any more. *)
Theorem failed_transition_leaves_no_active_state `{Collaborators}
    (w : World) (S1 bad : loc) (o1 : State) :
  active_state (node w) = Some S1 →
  states w !! S1 = Some o1 →
  states w !! bad = None →
  let w' := snd (Node_transition bad w) in
  fst (Node_transition bad w) = Raised AttributeError ∧
  active_state (node w') = Some bad ∧
  states w' = <[S1 := set_st_node None o1]> (states w) ∧
  trace w' = trace w ++ [EvPrint bad; EvDeactivate S1] ∧
  ∀ ds a msg,
    let w2 := feed ds w' in
    fst (_handler a msg w2) = Raised AttributeError ∧
    slot a (node (snd (_handler a msg w2))) = Some msg ∧
    trace (snd (_handler a msg w2)) = trace w'.
Proof.
  intros Hact Hs1 Hbad w'.
  assert (S1 ≠ bad) as Hne by congruence.
  assert (Node_transition bad w
          = (Raised AttributeError,
             with_node (set_active_state bad)
               (with_states <[S1 := set_st_node None o1]>
                  (emit (EvDeactivate S1) (emit (EvPrint bad) w))))) as Ht.
  { rewrite Node_transition_cases. simpl. rewrite Hact, Hs1.
    by rewrite lookup_insert_ne, Hbad. }
  unfold w'. rewrite Ht. simpl. split_and!; try done.
  - by rewrite <- !app_assoc.
  - intros ds a msg.
    set (w1 := with_node (set_active_state bad)
                 (with_states <[S1 := set_st_node None o1]>
                    (emit (EvDeactivate S1) (emit (EvPrint bad) w)))).
    assert (states w1 !! bad = None) as Hbad1
      by (simpl; by rewrite lookup_insert_ne).
    destruct (feed_no_state ds w1 bad eq_refl Hbad1) as (Ha & Hs & Htr).
    simpl. rewrite _handler_world.
    rewrite (Node_update_no_state _ bad);
      [| by rewrite <- Ha; apply active_state_setattr
       | simpl; by rewrite Hs ].
    simpl. split_and!; [done| by destruct a |done].
Qed.

Lemma failed_transition_leaves_no_active_state_witness :
  let w' := snd (Node_transition 9 demo_world) in
  fst (Node_transition 9 demo_world) = Raised AttributeError ∧
  active_state (node w') = Some 9 ∧
  states w' = <[1 := set_st_node None
                       (demo_state (Some TheNode) handover_body)]>
                (states demo_world) ∧
  trace w' = trace demo_world ++ [EvPrint 9; EvDeactivate 1] ∧
  ∀ ds a msg,
    let w2 := feed ds w' in
    fst (_handler a msg w2) = Raised AttributeError ∧
    slot a (node (snd (_handler a msg w2))) = Some msg ∧
    trace (snd (_handler a msg w2)) = trace w'.
Proof.
  apply (failed_transition_leaves_no_active_state demo_world 1 9
           (demo_state (Some TheNode) handover_body)).
  - reflexivity.
  - vm_compute. reflexivity.
  - vm_compute. reflexivity.
Defined.

(** ** Handing over and back *)

Lemma set_st_node_id `{Collaborators} (o : State) :
  set_st_node (st_node o) o = o.
Proof. by destruct o. Qed.

Lemma set_st_node_twice `{Collaborators} r r' (o : State) :
  set_st_node r (set_st_node r' o) = set_st_node r o.
Proof. done. Qed.

Lemma set_active_state_back `{Collaborators} s s' (n : Node) :
  active_state n = Some s →
  set_active_state s (set_active_state s' n) = n.
Proof. destruct n. simpl. by intros ->. Qed.

(** X4: with the bound state [S1] active and [S2] an unbound state,
    [transition(S2)] followed by [transition(S1)] returns normally and
    restores the node and every state object exactly: [S1] is active and
    bound again, [S2] is unbound again, the cache is untouched. Only the
    six trace entries of the two transitions remain. *)
Theorem transition_there_and_back `{Collaborators}
    (w : World) (S1 S2 : loc) (o1 o2 : State) :
  active_state (node w) = Some S1 →
  states w !! S1 = Some o1 →
  st_node o1 = Some TheNode →
  states w !! S2 = Some o2 →
  st_node o2 = None →
  let w1 := snd (Node_transition S2 w) in
  let w2 := snd (Node_transition S1 w1) in
  fst (Node_transition S2 w) = Ok tt ∧
  fst (Node_transition S1 w1) = Ok tt ∧
  node w2 = node w ∧
  states w2 = states w ∧
  param_server w2 = param_server w ∧
  subscribers w2 = subscribers w ∧
  trace w2 = trace w ++ [ EvPrint S2; EvDeactivate S1; EvActivate S2;
                          EvPrint S1; EvDeactivate S2; EvActivate S1 ].
Proof.
  intros Hact Hs1 Hb1 Hs2 Hb2 w1 w2.
  assert (S1 ≠ S2) as Hne by (intros ->; congruence).
  pose proof (Node_transition_ok w S1 S2 o1 o2 Hact Hs1 Hs2) as Ht1.
  assert (active_state (node w1) = Some S2) as Hact1
    by (unfold w1; by rewrite Ht1).
  assert (states w1 = <[S2 := set_st_node (Some TheNode) o2]>
                        (<[S1 := set_st_node None o1]> (states w))) as Hst1
    by (unfold w1; by rewrite Ht1).
  assert (states w1 !! S2 = Some (set_st_node (Some TheNode) o2)) as Hs2'
    by (rewrite Hst1; by rewrite lookup_insert_eq).
  assert (states w1 !! S1 = Some (set_st_node None o1)) as Hs1'.
  { rewrite Hst1. rewrite lookup_insert_ne by done.
    by rewrite lookup_insert_eq. }
  pose proof (Node_transition_ok w1 S2 S1 _ _ Hact1 Hs2' Hs1') as Ht2.
  unfold w2. rewrite Ht2. unfold w1 in *. rewrite Ht1 in *. simpl in *.
  split_and!; try done.
  - by apply set_active_state_back.
  - rewrite !set_st_node_twice, <- Hb1, <- Hb2, !set_st_node_id.
    apply map_eq. intros s.
    destruct (decide (s = S1)) as [->|?];
      [by rewrite lookup_insert_eq|rewrite lookup_insert_ne by done].
    destruct (decide (s = S2)) as [->|?];
      [by rewrite lookup_insert_eq|rewrite lookup_insert_ne by done].
    by rewrite !lookup_insert_ne.
  - by rewrite <- !app_assoc.
Qed.

Lemma transition_there_and_back_witness :
  let w1 := snd (Node_transition 2 demo_world) in
  let w2 := snd (Node_transition 1 w1) in
  fst (Node_transition 2 demo_world) = Ok tt ∧
  fst (Node_transition 1 w1) = Ok tt ∧
  node w2 = node demo_world ∧
  states w2 = states demo_world ∧
  param_server w2 = param_server demo_world ∧
  subscribers w2 = subscribers demo_world ∧
  trace w2 = trace demo_world ++
               [ EvPrint 2; EvDeactivate 1; EvActivate 2;
                 EvPrint 1; EvDeactivate 2; EvActivate 1 ].
Proof.
  apply (transition_there_and_back demo_world 1 2
           (demo_state (Some TheNode) handover_body)
           (demo_state None follow_body)).
  - reflexivity.
  - vm_compute. reflexivity.
  - reflexivity.
  - vm_compute. reflexivity.
  - reflexivity.
Defined.

(** ** Using [self.node] after asking for a transition *)

(** X5: a body that calls [self.node.transition(S2)] and then goes through
    [self.node] again finds [None] there, because the transition has
    already deactivated it: the second call raises [AttributeError], which
    the dispatch does not swallow. The transition itself stays in effect:
    [S2] is the active state when the exception reaches the caller. *)
Theorem self_node_is_gone_after_transition `{Collaborators}
    (w : World) (S1 S2 : loc) (o1 o2 : State)
    (op : Op) (k : ret_ty op → Prog) :
  active_state (node w) = Some S1 →
  states w !! S1 = Some o1 →
  st_node o1 = Some TheNode →
  states w !! S2 = Some o2 →
  S1 ≠ S2 →
  st_update o1 = via_node (OpTransition S2) (λ _, via_node op k) →
  Node_update w = (Raised AttributeError, snd (Node_transition S2 w)) ∧
  fst (Node_transition S2 w) = Ok tt ∧
  active_state (node (snd (Node_update w))) = Some S2 ∧
  fst (exec OpSelfNode S1 (snd (Node_transition S2 w))) = Ok None.
Proof.
  intros Hact Hs1 Hb1 Hs2 Hne Hbody.
  pose proof (Node_transition_ok w S1 S2 o1 o2 Hact Hs1 Hs2) as Ht.
  assert (exec OpSelfNode S1 (snd (Node_transition S2 w))
          = (Ok None, snd (Node_transition S2 w))) as Hself.
  { rewrite Ht. simpl. unfold bind, get_state. simpl.
    rewrite lookup_insert_ne by done. by rewrite lookup_insert_eq. }
  assert (Node_update w
          = (Raised AttributeError, snd (Node_transition S2 w))) as Hup.
  { unfold Node_update, except_WaitingForData, State_update.
    unfold bind at 1. unfold get_active_state. rewrite Hact.
    unfold bind at 1. unfold get_state at 1. rewrite Hs1, Hbody.
    unfold via_node at 1. cbn [run].
    assert (exec OpSelfNode S1 w = (Ok (Some TheNode), w)) as ->.
    { simpl. unfold bind, get_state, ret. by rewrite Hs1, Hb1. }
    unfold call at 1. cbn [run].
    change (exec (OpTransition S2) S1 w) with (Node_transition S2 w).
    rewrite Ht in Hself |- *. cbn [snd] in Hself.
    unfold via_node. cbn [run snd]. by rewrite Hself. }
  rewrite Hup, Hself. rewrite Ht. done.
Qed.

Lemma self_node_is_gone_after_transition_witness :
  let w := snd (Node_init 4 "demo" demo_world0_eager) in
  Node_update w = (Raised AttributeError, snd (Node_transition 2 w)) ∧
  fst (Node_transition 2 w) = Ok tt ∧
  active_state (node (snd (Node_update w))) = Some 2 ∧
  fst (exec OpSelfNode 4 (snd (Node_transition 2 w))) = Ok None.
Proof.
  apply (self_node_is_gone_after_transition
           (snd (Node_init 4 "demo" demo_world0_eager)) 4 2
           (demo_state (Some TheNode) eager_body)
           (demo_state None follow_body)
           (OpSetSpeed zero zero) (λ _, Return)).
  - reflexivity.
  - vm_compute. reflexivity.
  - reflexivity.
  - vm_compute. reflexivity.
  - discriminate.
  - reflexivity.
Defined.

(** ** What a dispatch can add to the trace *)

Lemma dispatch_event_publishers `{Collaborators} w w' e :
  velocity_pub (node w') = velocity_pub (node w) →
  target_pub (node w') = target_pub (node w) →
  dispatch_event w' e → dispatch_event w e.
Proof. intros Hv Ht. destruct e; simpl; by rewrite ?Hv, ?Ht. Qed.

Lemma grows_refl `{Collaborators} w w' :
  trace w' = trace w → grows_by_dispatch_events w w'.
Proof. intros Ht. exists []. by rewrite Ht, app_nil_r. Qed.

Lemma grows_trans `{Collaborators} w1 w2 w3 :
  velocity_pub (node w2) = velocity_pub (node w1) →
  target_pub (node w2) = target_pub (node w1) →
  grows_by_dispatch_events w1 w2 →
  grows_by_dispatch_events w2 w3 →
  grows_by_dispatch_events w1 w3.
Proof.
  intros Hv Ht (evs1 & Ht1 & Hf1) (evs2 & Ht2 & Hf2).
  exists (evs1 ++ evs2). split.
  - by rewrite Ht2, Ht1, app_assoc.
  - apply Forall_app. split; [done|].
    eapply Forall_impl; [exact Hf2|]. intros e.
    by apply dispatch_event_publishers.
Qed.

Lemma isnan_sanitized (x : pyfloat) :
  isnan (if isnan x then zero else x) = false.
Proof. by destruct x. Qed.

Lemma Node_set_speed_grows `{Collaborators} forward angular w :
  grows_by_dispatch_events w (snd (Node_set_speed forward angular w)).
Proof.
  unfold Node_set_speed, bind, get_velocity_pub, publish_twist, modify.
  destruct (velocity_pub (node w)) as [[topic]|] eqn:Hp;
    [|by apply grows_refl].
  eexists. split; [done|]. apply Forall_singleton. simpl.
  split; [done|]. unfold clean_command. simpl.
  by rewrite !isnan_sanitized.
Qed.

Lemma Node_mark_target_grows `{Collaborators} args w :
  grows_by_dispatch_events w (snd (Node_mark_target args w)).
Proof.
  unfold Node_mark_target, bind, get_target_pub, publish_marker, modify.
  destruct (target_pub (node w)) as [[topic]|] eqn:Hp;
    [|by apply grows_refl].
  eexists. split; [done|]. by apply Forall_singleton.
Qed.

Lemma Node_transition_grows `{Collaborators} to_node w :
  grows_by_dispatch_events w (snd (Node_transition to_node w)).
Proof.
  rewrite Node_transition_cases. simpl.
  destruct (active_state (node w)) as [s1|];
    [|by exists [EvPrint to_node]; split; [|apply Forall_singleton]].
  destruct (states w !! s1) as [o1|];
    [|by exists [EvPrint to_node]; split; [|apply Forall_singleton]].
  destruct (<[s1:=set_st_node None o1]> (states w) !! to_node); simpl.
  - exists [EvPrint to_node; EvDeactivate s1; EvActivate to_node].
    split; [simpl; by rewrite <- !app_assoc|]. by repeat constructor.
  - exists [EvPrint to_node; EvDeactivate s1].
    split; [simpl; by rewrite <- !app_assoc|]. by repeat constructor.
Qed.

Lemma exec_grows `{Collaborators} op self w :
  grows_by_dispatch_events w (snd (exec op self w)).
Proof.
  destruct op; simpl;
    try (by rewrite State_params_world; apply grows_refl);
    try (by apply Node_transition_grows);
    try (by apply Node_set_speed_grows);
    try (by apply Node_mark_target_grows);
    apply grows_refl;
    unfold Node_laser_points, Node_position, Node_orientation,
      Node_linear_vel, Node_angular_vel, Node_odom,
      Node_laser_point_cloud, Node_param, rospy_get_param;
    by crush_M.
Qed.

Lemma wiring_publishers `{Collaborators} w w' :
  wiring w' = wiring w →
  velocity_pub (node w') = velocity_pub (node w) ∧
  target_pub (node w') = target_pub (node w).
Proof. unfold wiring. by intros [= _ _ -> -> _ _]. Qed.

Lemma run_grows `{Collaborators} p self w :
  grows_by_dispatch_events w (snd (run p self w)).
Proof.
  revert w. induction p as [| e | op k IH]; intros w;
    [by apply grows_refl..|].
  simpl. pose proof (exec_grows op self w) as Hg.
  destruct (wiring_publishers _ _ (exec_wiring op self w)) as [Hv Ht].
  destruct (exec op self w) as [r w1]. simpl in *.
  by apply (grows_trans w w1), IH.
Qed.

Lemma Node_update_grows `{Collaborators} w :
  grows_by_dispatch_events w (snd (Node_update w)).
Proof.
  unfold Node_update. rewrite except_WaitingForData_world.
  unfold State_update, bind, get_active_state, get_state.
  destruct (active_state (node w)) as [s|]; [|by apply grows_refl].
  destruct (states w !! s) as [o|]; [|by apply grows_refl].
  apply run_grows.
Qed.

Lemma publishers_setattr `{Collaborators} a msg n :
  velocity_pub (setattr a msg n) = velocity_pub n ∧
  target_pub (setattr a msg n) = target_pub n.
Proof. by destruct a. Qed.

Lemma _handler_grows `{Collaborators} a msg w :
  grows_by_dispatch_events w (snd (_handler a msg w)) ∧
  velocity_pub (node (snd (_handler a msg w))) = velocity_pub (node w) ∧
  target_pub (node (snd (_handler a msg w))) = target_pub (node w).
Proof.
  rewrite _handler_world.
  destruct (publishers_setattr a msg (node w)) as [Hv Ht].
  destruct (wiring_publishers _ _
              (Node_update_wiring (with_node (setattr a msg) w)))
    as [Hv' Ht'].
  split; [|by rewrite Hv', Ht'].
  apply (grows_trans w (with_node (setattr a msg) w)); try done.
  - by apply grows_refl.
  - apply Node_update_grows.
Qed.

Lemma feed_grows `{Collaborators} ds w :
  grows_by_dispatch_events w (feed ds w).
Proof.
  revert w. induction ds as [|[a msg] ds IH]; intros w;
    [by apply grows_refl|].
  destruct (_handler_grows a msg w) as (Hg & Hv & Ht).
  unfold feed in *. simpl.
  by apply (grows_trans w (snd (_handler a msg w))), IH.
Qed.

(** X6: whatever the bodies of the states do, a run of a body and any
    sequence of callbacks only append to the trace, and what they append
    is limited to: velocity commands on the topic of the node's velocity
    publisher, each with a forward speed and a yaw rate that are not NaN
    and zeros elsewhere; markers on the topic of the node's target
    publisher; and the announcements and hooks of transitions. No dispatch
    initialises a node, advertises a topic or subscribes to one. *)
Theorem dispatch_only_publishes_clean_commands `{Collaborators} :
  (∀ p self w, grows_by_dispatch_events w (snd (run p self w))) ∧
  (∀ w, grows_by_dispatch_events w (snd (Node_update w))) ∧
  (∀ ds w, grows_by_dispatch_events w (feed ds w)) ∧
  (∀ w w' topic msg,
     grows_by_dispatch_events w w' →
     EvPublishTwist topic msg ∈ trace w' →
     EvPublishTwist topic msg ∈ trace w ∨
     (velocity_pub (node w) = Some {| pub_topic := topic |} ∧
      isnan (v3_x (linear msg)) = false ∧
      isnan (v3_z (angular msg)) = false ∧
      msg = velocity_command (v3_x (linear msg)) (v3_z (angular msg)))).
Proof.
  split_and!.
  - apply @run_grows.
  - apply @Node_update_grows.
  - apply @feed_grows.
  - intros w w' topic msg (evs & Htr & Hf) Hin.
    rewrite Htr in Hin. apply elem_of_app in Hin as [Hin|Hin]; [by left|].
    right. rewrite Forall_forall in Hf. destruct (Hf _ Hin) as [Hp Hc].
    unfold clean_command in Hc.
    destruct msg as [[lx ly lz] [ax ay az]]. simpl in *.
    repeat (apply andb_prop in Hc as [Hc ?]).
    apply negb_true_iff in Hc.
    assert (∀ x, is_zero x = true → x = zero) as Hz
      by (by intros [[]| | |]).
    unfold velocity_command.
    rewrite (Hz ly), (Hz lz), (Hz ax), (Hz ay) by done.
    split_and!; try done. by apply negb_true_iff.
Qed.

(** ** [params] of a state that is not bound *)

(** X7: on a state that is not bound to a node, [params] is the empty
    dict when the state declares no default parameter (the comprehension
    never evaluates [self.node]), and raises [AttributeError] as soon as
    it declares one; either way nothing changes. *)
Theorem params_of_unbound_state `{Collaborators}
    (w : World) (self : loc) (o : State) :
  states w !! self = Some o →
  st_node o = None →
  (default_params o = ∅ → State_params self w = (Ok ∅, w)) ∧
  (default_params o ≠ ∅ →
   State_params self w = (Raised AttributeError, w)).
Proof.
  intros Hs Hn. unfold State_params, bind, get_state. rewrite Hs. split.
  - intros ->. by rewrite map_to_list_empty.
  - intros Hne.
    destruct (map_to_list (default_params o)) as [|[name val] rest] eqn:E.
    + by apply map_to_list_empty_iff in E.
    + simpl. unfold bind, get_state. by rewrite Hs, Hn.
Qed.

Lemma params_of_unbound_state_witness :
  (default_params (demo_state None follow_body) = ∅ →
   State_params 2 demo_world = (Ok ∅, demo_world)) ∧
  (default_params (demo_state None follow_body) ≠ ∅ →
   State_params 2 demo_world = (Raised AttributeError, demo_world)).
Proof.
  apply (params_of_unbound_state demo_world 2 (demo_state None follow_body)).
  - vm_compute. reflexivity.
  - reflexivity.
Defined.

(** ** Waiting for the first message *)

Lemma exec_sensor_unset `{Collaborators} op a self w :
  channel_of op = Some a →
  slot a (node w) = None →
  exec op self w = (Raised WaitingForData, w).
Proof.
  intros Hop Hslot.
  destruct op; try discriminate; injection Hop as <-; simpl in *;
    unfold Node_laser_points, Node_position, Node_orientation,
      Node_linear_vel, Node_angular_vel, bind, Node_odom,
      Node_laser_point_cloud;
    by rewrite Hslot.
Qed.

Lemma Node_update_waits `{Collaborators} w s o op a k :
  channel_of op = Some a →
  slot a (node w) = None →
  active_state (node w) = Some s →
  states w !! s = Some o →
  st_update o = call op k ∨
  (st_update o = via_node op k ∧ is_Some (st_node o)) →
  Node_update w = (Ok tt, w).
Proof.
  intros Hop Hslot Hact Hs Hbody.
  unfold Node_update, except_WaitingForData, State_update, bind,
    get_active_state, get_state.
  rewrite Hact, Hs.
  destruct Hbody as [-> | [-> [nd Hnd]]].
  - unfold call. cbn [run]. by rewrite (exec_sensor_unset op a).
  - unfold via_node. cbn [run].
    assert (exec OpSelfNode s w = (Ok (Some nd), w)) as ->.
    { simpl. unfold bind, get_state, ret. by rewrite Hs, Hnd. }
    unfold call. cbn [run]. by rewrite (exec_sensor_unset op a).
Qed.

(** X8: while the channel a body reads first has no message, the dispatch
    of that body does nothing at all: it returns normally and the world is
    the same, so nothing is published and no transition happens. A message
    on the other channel is cached and has no further effect. This holds
    whether the body calls the accessor on a saved node or through
    [self.node]. *)
Theorem nothing_happens_until_first_message `{Collaborators}
    (w : World) (s : loc) (o : State) (op : Op) (a : attr_name)
    (k : ret_ty op → Prog) :
  channel_of op = Some a →
  slot a (node w) = None →
  active_state (node w) = Some s →
  states w !! s = Some o →
  st_update o = call op k ∨
  (st_update o = via_node op k ∧ is_Some (st_node o)) →
  Node_update w = (Ok tt, w) ∧
  ∀ b (msg : msg_ty b),
    b ≠ a → _handler b msg w = (Ok tt, with_node (setattr b msg) w).
Proof.
  intros Hop Hslot Hact Hs Hbody. split.
  - by apply (Node_update_waits w s o op a k).
  - intros b msg Hne. rewrite _handler_world.
    apply (Node_update_waits _ s o op a k); try done.
    + simpl. rewrite slot_setattr. by destruct a, b.
    + simpl. by rewrite active_state_setattr.
Qed.

Lemma nothing_happens_until_first_message_witness :
  Node_update demo_world_follow = (Ok tt, demo_world_follow) ∧
  ∀ b (msg : msg_ty b),
    b ≠ attr_odom →
    _handler b msg demo_world_follow
    = (Ok tt, with_node (setattr b msg) demo_world_follow).
Proof.
  apply (nothing_happens_until_first_message demo_world_follow 2
           (demo_state (Some TheNode) follow_body) OpLinearVel attr_odom
           (λ v, call (OpSetSpeed (v3_x v) zero) (λ _, Return))).
  - reflexivity.
  - reflexivity.
  - reflexivity.
  - vm_compute. reflexivity.
  - left. reflexivity.
Defined.

(** ** The bootstrap *)

Lemma name_or_twice name fallback :
  name_or (Some (name_or name fallback)) fallback = name_or name fallback.
Proof. destruct name as [[|c s]|]; simpl; by destruct fallback. Qed.

Lemma _handler_subscribers `{Collaborators} a msg w :
  subscribers (snd (_handler a msg w)) = subscribers w.
Proof.
  rewrite _handler_world.
  pose proof (Node_update_wiring (with_node (setattr a msg) w)) as Hw.
  unfold wiring in Hw. by injection Hw as _ _ _ _ -> _.
Qed.

Lemma Node_run_subscribed `{Collaborators} arrivals w :
  (∀ a, subscribed a w = true) →
  Node_run arrivals w = (Ok tt, feed arrivals w).
Proof.
  intros Hsub. unfold Node_run, modify, feed. f_equal.
  revert w Hsub. induction arrivals as [|[a msg] ds IH]; intros w Hsub;
    [done|].
  simpl. unfold deliver at 2. simpl. rewrite Hsub. apply IH.
  intros b. unfold subscribed. rewrite _handler_subscribers. apply Hsub.
Qed.

Lemma Node_run_node_no_reset `{Collaborators} reset S0 cls name arrivals w0 :
  Node_run_node reset S0 cls name false arrivals w0
  = match Node_init S0 (name_or name cls) (with_node (λ _, Node_new) w0) with
    | (Ok _, w) => Node_run arrivals w
    | (Raised e, w) => (Raised e, w)
    end.
Proof.
  unfold Node_run_node, bind, ret, modify.
  by destruct (Node_init S0 (name_or name cls) _) as [[[]|e] w].
Qed.

(** X9: started without a reset on a process that has no subscriber yet,
    with a starting state that is a [State], [run_node] returns normally
    when the event loop ends. It allocates the node, constructs it under
    [name], or under the class name of the state when [name] is [None] or
    empty, and then every arrival reaches its callback: at the end each
    cache slot holds the last message that arrived on its channel, or
    nothing if none did. [State.run] does exactly the same. *)
Theorem run_node_constructs_then_delivers `{Collaborators}
    (reset_gazebo : bool → M unit) (w0 : World) (S0 : loc) (o0 : State)
    (class_name : string) (name : option string)
    (arrivals : list delivery) :
  states w0 !! S0 = Some o0 →
  subscribers w0 = [] →
  let w1 := constructed S0 (name_or name class_name) o0
              (with_node (λ _, Node_new) w0) in
  Node_run_node reset_gazebo S0 class_name name false arrivals w0
  = (Ok tt, feed arrivals w1) ∧
  State_run reset_gazebo S0 class_name name false arrivals w0
  = (Ok tt, feed arrivals w1) ∧
  Node_run_node reset_gazebo S0 class_name (Some "") false arrivals w0
  = Node_run_node reset_gazebo S0 class_name None false arrivals w0 ∧
  trace w1 = trace w0 ++
    [ EvInitNode (name_or name class_name); EvActivate S0;
      EvAdvertise "/cmd_vel"; EvAdvertise "/target";
      EvSubscribe "/odom" attr_odom;
      EvSubscribe "/projected_stable_scan" attr_laser_point_cloud ] ∧
  grows_by_dispatch_events w1 (feed arrivals w1) ∧
  ∀ a, slot a (node (feed arrivals w1)) = last_msg a arrivals.
Proof.
  intros HS0 Hsub w1.
  assert (∀ nm, Node_run_node reset_gazebo S0 class_name nm false arrivals w0
                = (Ok tt,
                   feed arrivals
                     (constructed S0 (name_or nm class_name) o0
                        (with_node (λ _, Node_new) w0)))) as Hrun.
  { intros nm. rewrite Node_run_node_no_reset, Node_init_cases. simpl.
    rewrite HS0. apply Node_run_subscribed.
    intros a. unfold subscribed, constructed. simpl. rewrite Hsub.
    by destruct a. }
  split_and!.
  - apply Hrun.
  - unfold State_run. by rewrite Hrun, name_or_twice.
  - by rewrite !Hrun.
  - unfold w1, constructed. simpl. by rewrite <- !app_assoc.
  - apply feed_grows.
  - intros a. rewrite feed_slot.
    destruct (last_msg a arrivals); [done|]. by destruct a.
Qed.

Lemma run_node_constructs_then_delivers_witness :
  let w1 := constructed 2 (name_or (Some "") "Follow")
              (demo_state None follow_body)
              (with_node (λ _, Node_new) demo_world0) in
  Node_run_node (λ _, ret tt) 2 "Follow" (Some "") false demo_deliveries
    demo_world0
  = (Ok tt, feed demo_deliveries w1) ∧
  State_run (λ _, ret tt) 2 "Follow" (Some "") false demo_deliveries
    demo_world0
  = (Ok tt, feed demo_deliveries w1) ∧
  Node_run_node (λ _, ret tt) 2 "Follow" (Some "") false demo_deliveries
    demo_world0
  = Node_run_node (λ _, ret tt) 2 "Follow" None false demo_deliveries
      demo_world0 ∧
  trace w1 = trace demo_world0 ++
    [ EvInitNode (name_or (Some "") "Follow"); EvActivate 2;
      EvAdvertise "/cmd_vel"; EvAdvertise "/target";
      EvSubscribe "/odom" attr_odom;
      EvSubscribe "/projected_stable_scan" attr_laser_point_cloud ] ∧
  grows_by_dispatch_events w1 (feed demo_deliveries w1) ∧
  ∀ a, slot a (node (feed demo_deliveries w1)) = last_msg a demo_deliveries.
Proof.
  apply (run_node_constructs_then_delivers (λ _, ret tt) demo_world0 2
           (demo_state None follow_body) "Follow" (Some "")
           demo_deliveries).
  - vm_compute. reflexivity.
  - reflexivity.
Defined.

(** X10: [run_node] resets the simulation first when asked to: if the
    reset raises, that exception is the outcome and no node is
    constructed; if it returns, the rest is [run_node] without a reset.
    If the starting state is not a [State], [run_node] raises
    [AttributeError] right after [init_node]: the slot already holds the
    object, but no publisher exists, no callback is registered, and no
    arrival is dispatched. *)
Theorem run_node_failures `{Collaborators}
    (reset_gazebo : bool → M unit) (w0 : World) (S0 : loc)
    (class_name : string) (name : option string)
    (arrivals : list delivery) :
  (∀ e w1,
     reset_gazebo true w0 = (Raised e, w1) →
     Node_run_node reset_gazebo S0 class_name name true arrivals w0
     = (Raised e, w1)) ∧
  (∀ w1,
     reset_gazebo true w0 = (Ok tt, w1) →
     Node_run_node reset_gazebo S0 class_name name true arrivals w0
     = Node_run_node reset_gazebo S0 class_name name false arrivals w1) ∧
  (states w0 !! S0 = None →
   let r := Node_run_node reset_gazebo S0 class_name name false arrivals w0 in
   fst r = Raised AttributeError ∧
   node (snd r) = set_active_state S0 Node_new ∧
   subscribers (snd r) = subscribers w0 ∧
   states (snd r) = states w0 ∧
   trace (snd r) = trace w0 ++ [EvInitNode (name_or name class_name)]).
Proof.
  split_and!.
  - intros e w1 Hr. unfold Node_run_node. unfold bind at 1. by rewrite Hr.
  - intros w1 Hr. unfold Node_run_node. unfold bind at 1. rewrite Hr.
    by unfold bind at 3, ret.
  - intros HS0 r. unfold r.
    rewrite Node_run_node_no_reset, Node_init_cases. simpl.
    by rewrite HS0.
Qed.

(** ** A state that does not override [update] *)

Lemma Node_update_default `{Collaborators} w s o :
  active_state (node w) = Some s →
  states w !! s = Some o →
  st_update o = State_update_default →
  Node_update w = (Raised NotImplementedError, w).
Proof.
  intros Hact Hs Hbody.
  unfold Node_update, except_WaitingForData, State_update, bind,
    get_active_state, get_state.
  by rewrite Hact, Hs, Hbody.
Qed.

Lemma feed_default `{Collaborators} ds w s o :
  active_state (node w) = Some s →
  states w !! s = Some o →
  st_update o = State_update_default →
  active_state (node (feed ds w)) = Some s ∧
  states (feed ds w) = states w ∧
  trace (feed ds w) = trace w.
Proof.
  revert w. induction ds as [|[a msg] ds IH]; intros w Hact Hs Hbody;
    [done|].
  assert (active_state (node (with_node (setattr a msg) w)) = Some s)
    as Hact1 by (rewrite <- Hact; apply active_state_setattr).
  destruct (IH (with_node (setattr a msg) w) Hact1 Hs Hbody)
    as (Ha & Hst & Ht).
  unfold feed in *. simpl. rewrite _handler_world.
  by rewrite (Node_update_default _ s o).
Qed.

(** X11: when the active state keeps [State.update] as it is, every
    callback raises [NotImplementedError] to the transport, for every
    message and for ever: the dispatch does not swallow it, the state
    stays active, and nothing is published. The message is cached all the
    same, since the callback stores it before it dispatches. *)
Theorem unimplemented_update_fails_every_callback `{Collaborators}
    (w : World) (s : loc) (o : State)
    (ds : list delivery) (a : attr_name) (msg : msg_ty a) :
  active_state (node w) = Some s →
  states w !! s = Some o →
  st_update o = State_update_default →
  let w2 := feed ds w in
  fst (_handler a msg w2) = Raised NotImplementedError ∧
  slot a (node (snd (_handler a msg w2))) = Some msg ∧
  active_state (node (snd (_handler a msg w2))) = Some s ∧
  states (snd (_handler a msg w2)) = states w ∧
  trace (snd (_handler a msg w2)) = trace w.
Proof.
  intros Hact Hs Hbody.
  destruct (feed_default ds w s o Hact Hs Hbody) as (Ha & Hst & Ht).
  simpl. rewrite _handler_world.
  rewrite (Node_update_default _ s o);
    [| by rewrite <- Ha; apply active_state_setattr
     | simpl; by rewrite Hst
     | done ].
  simpl. split_and!; try done.
  - by destruct a.
  - rewrite <- Ha. apply active_state_setattr.
Qed.

Lemma unimplemented_update_fails_every_callback_witness :
  let w2 := feed demo_deliveries demo_world_abstract in
  fst (_handler attr_odom odom_A w2) = Raised NotImplementedError ∧
  slot attr_odom (node (snd (_handler attr_odom odom_A w2))) = Some odom_A ∧
  active_state (node (snd (_handler attr_odom odom_A w2))) = Some 3 ∧
  states (snd (_handler attr_odom odom_A w2)) = states demo_world_abstract ∧
  trace (snd (_handler attr_odom odom_A w2)) = trace demo_world_abstract.
Proof.
  apply (unimplemented_update_fails_every_callback demo_world_abstract 3
           (demo_state (Some TheNode) State_update_default)
           demo_deliveries attr_odom odom_A).
  - reflexivity.
  - vm_compute. reflexivity.
  - reflexivity.
Defined.

(** ** A body that goes on after its transition *)

(** X12: a body that asks for a transition through [self.node] and then
    sets the speed on the node it saved is run to its end: the dispatch
    returns normally, the command is published after the new state was
    activated, and the new state is the active one afterwards. The harness
    neither stops the old body nor publishes a stop command of its own. *)
Theorem old_body_runs_on_after_transition `{Collaborators}
    (w : World) (S1 S2 : loc) (o1 o2 : State) (p : Publisher)
    (forward angular : pyfloat) :
  active_state (node w) = Some S1 →
  states w !! S1 = Some o1 →
  st_node o1 = Some TheNode →
  states w !! S2 = Some o2 →
  velocity_pub (node w) = Some p →
  st_update o1
  = via_node (OpTransition S2)
      (λ _, call (OpSetSpeed forward angular) (λ _, Return)) →
  let w' := snd (Node_update w) in
  fst (Node_update w) = Ok tt ∧
  w' = snd (Node_set_speed forward angular (snd (Node_transition S2 w))) ∧
  active_state (node w') = Some S2 ∧
  trace w' = trace w ++
    [ EvPrint S2; EvDeactivate S1; EvActivate S2;
      EvPublishTwist (pub_topic p)
        (velocity_command (if isnan forward then zero else forward)
                          (if isnan angular then zero else angular)) ].
Proof.
  intros Hact Hs1 Hb1 Hs2 Hp Hbody w'.
  pose proof (Node_transition_ok w S1 S2 o1 o2 Hact Hs1 Hs2) as Ht.
  assert (Node_update w
          = (Ok tt,
             snd (Node_set_speed forward angular
                    (snd (Node_transition S2 w))))) as Hup.
  { unfold Node_update, except_WaitingForData, State_update.
    unfold bind at 1. unfold get_active_state. rewrite Hact.
    unfold bind at 1. unfold get_state at 1. rewrite Hs1, Hbody.
    unfold via_node at 1. cbn [run].
    assert (exec OpSelfNode S1 w = (Ok (Some TheNode), w)) as ->.
    { simpl. unfold bind, get_state, ret. by rewrite Hs1, Hb1. }
    unfold call at 1. cbn [run].
    change (exec (OpTransition S2) S1 w) with (Node_transition S2 w).
    rewrite Ht. cbn [snd]. unfold call. cbn [run].
    change (exec (OpSetSpeed forward angular) S1 ?w0)
      with (Node_set_speed forward angular w0).
    unfold Node_set_speed, bind, get_velocity_pub, publish_twist, modify.
    simpl. by rewrite Hp. }
  unfold w'. rewrite Hup, Ht.
  unfold Node_set_speed, bind, get_velocity_pub, publish_twist, modify.
  simpl. rewrite Hp. simpl. split_and!; try done.
  by rewrite <- !app_assoc.
Qed.

Lemma old_body_runs_on_after_transition_witness :
  let w0 := snd (Node_init 5 "demo" demo_world0_saved) in
  let w' := snd (Node_update w0) in
  fst (Node_update w0) = Ok tt ∧
  w' = snd (Node_set_speed zero S754_nan (snd (Node_transition 2 w0))) ∧
  active_state (node w') = Some 2 ∧
  trace w' = trace w0 ++
    [ EvPrint 2; EvDeactivate 5; EvActivate 2;
      EvPublishTwist "/cmd_vel"
        (velocity_command (if isnan zero then zero else zero)
                          (if isnan S754_nan then zero else S754_nan)) ].
Proof.
  apply (old_body_runs_on_after_transition
           (snd (Node_init 5 "demo" demo_world0_saved)) 5 2
           (demo_state (Some TheNode) saved_body)
           (demo_state None follow_body)
           {| pub_topic := "/cmd_vel" |} zero S754_nan).
  - reflexivity.
  - vm_compute. reflexivity.
  - reflexivity.
  - vm_compute. reflexivity.
  - reflexivity.
  - reflexivity.
Defined.

(** ** What no callback changes *)

Lemma _handler_fixed_parts `{Collaborators} a msg w :
  let w' := snd (_handler a msg w) in
  velocity_pub (node w') = velocity_pub (node w) ∧
  target_pub (node w') = target_pub (node w) ∧
  subscribers w' = subscribers w ∧
  param_server w' = param_server w.
Proof.
  simpl. rewrite _handler_world.
  pose proof (Node_update_wiring (with_node (setattr a msg) w)) as Hw.
  unfold wiring in Hw. injection Hw as _ _ -> -> -> ->. simpl.
  by destruct a.
Qed.

(** X13: no callback, whatever the body it dispatches to does, replaces
    a publisher, registers or removes a callback, or writes the parameter
    server. After any sequence of callbacks [param] therefore answers
    every lookup as it did before, and a delivery reaches its callback
    exactly if it did before. *)
Theorem callbacks_keep_publishers_subscriptions_and_parameters
    `{Collaborators} (ds : list delivery) (w : World) :
  let w' := feed ds w in
  velocity_pub (node w') = velocity_pub (node w) ∧
  target_pub (node w') = target_pub (node w) ∧
  subscribers w' = subscribers w ∧
  param_server w' = param_server w ∧
  (∀ name d, fst (Node_param name d w') = fst (Node_param name d w)) ∧
  (∀ a, subscribed a w' = subscribed a w).
Proof.
  assert (velocity_pub (node (feed ds w)) = velocity_pub (node w) ∧
          target_pub (node (feed ds w)) = target_pub (node w) ∧
          subscribers (feed ds w) = subscribers w ∧
          param_server (feed ds w) = param_server w) as (Hv & Ht & Hsub & Hp).
  { revert w. induction ds as [|[a msg] ds IH]; intros w; [done|].
    destruct (_handler_fixed_parts a msg w) as (Hv & Ht & Hsub & Hp).
    destruct (IH (snd (_handler a msg w))) as (Hv' & Ht' & Hsub' & Hp').
    unfold feed in *. simpl.
    by rewrite Hv', Ht', Hsub', Hp'. }
  simpl. split_and!; try done.
  - intros name d. unfold Node_param, rospy_get_param, gets. simpl.
    by rewrite Hp.
  - intros a. unfold subscribed. by rewrite Hsub.
Qed.
